(** * Symbulate: Markov chains and the Bernoulli space, embedded shallowly

    Sources: [symbulate/markov_chains.py] and [symbulate/distributions.py].

    Numbers.  The Python code computes with [int] and [float].  Here every
    number is an exact rational ([Q]); comparisons are the boolean ones of
    [QArith], and division is the fallible [py_div], which raises
    [ZeroDivisionError] on a zero divisor as Python's [/] does.

    Module [Rounded] embeds the same arithmetic with the rounding of every
    operation left open: a [float] is the rational it stands for, and an
    operation on floats returns the rounded exact result.  With the
    identity as rounding it is the exact embedding, which is how Python
    computes on [int].

    Exceptions.  A computation that may raise returns [result A].  The
    loop [while True] of the continuous-time evaluation rule is run with
    fuel; [None] means the fuel ran out. *)

From Stdlib Require Import List Bool Arith Lia ZArith QArith Qabs Qround Lqa String.
Import ListNotations.

Set Implicit Arguments.

(* ================================================================== *)
(** * Python runtime: exceptions, results, lists *)
(* ================================================================== *)

Module Py.

(** The exception classes that appear.  [Exception] is the plain class
    the source raises with a message.  [InvalidGeneratorError],
    [InvalidParameterError] and [DomainError] are the typed errors the
    specification names. *)
Inductive exn : Type :=
| Exception (msg : string)
| ZeroDivisionError
| IndexError
| AttributeError (attr : string)
| ValueError (msg : string)
| InvalidGeneratorError (row col : nat) (value : Q)
| InvalidParameterError
| DomainError.

Inductive result (A : Type) : Type :=
| OK (a : A)
| Err (e : exn).

Arguments OK {A} a.
Arguments Err {A} e.

Definition bind {A B} (r : result A) (k : A -> result B) : result B :=
  match r with
  | OK a => k a
  | Err e => Err e
  end.

Notation "x <- c ;; k" := (bind c (fun x => k))
  (at level 61, c at next level, right associativity).
Notation "c ;;; k" := (bind c (fun _ => k))
  (at level 61, right associativity).

(** [raise_if c e]: the statement [if c: raise e]. *)
Definition raise_if (c : bool) (e : exn) : result unit :=
  if c then Err e else OK tt.

(** [a < b] on numbers. *)
Definition Qltb (a b : Q) : bool := negb (Qle_bool b a).

(** [a / b]; Python raises on a zero divisor. *)
Definition py_div (a b : Q) : result Q :=
  if Qeq_bool b 0 then Err ZeroDivisionError else OK (a / b)%Q.

(** [sum(row)]: starts from 0 and adds from the left. *)
Definition py_sum (row : list Q) : Q := fold_left Qplus row 0%Q.

(** [l[i]] for a non-negative index. *)
Definition getitem {A} (l : list A) (i : nat) : result A :=
  match nth_error l i with
  | Some a => OK a
  | None => Err IndexError
  end.

(** [enumerate(l)]. *)
Fixpoint enumerate_from {A} (k : nat) (l : list A) : list (nat * A) :=
  match l with
  | [] => []
  | a :: l' => (k, a) :: enumerate_from (S k) l'
  end.

Definition enumerate {A} (l : list A) : list (nat * A) := enumerate_from 0 l.

(** [for a in l: body(a)], stopping at the first exception. *)
Fixpoint for_each {A} (l : list A) (body : A -> result unit) : result unit :=
  match l with
  | [] => OK tt
  | a :: l' => body a ;;; for_each l' body
  end.

(** [[f(a) for a in l]], stopping at the first exception. *)
Fixpoint list_comp {A B} (l : list A) (f : A -> result B) : result (list B) :=
  match l with
  | [] => OK []
  | a :: l' => b <- f a ;; bs <- list_comp l' f ;; OK (b :: bs)
  end.

(** [for a in l: s = body(a, s)], stopping at the first exception. *)
Fixpoint for_fold {A S} (l : list A) (body : A -> S -> result S) (s : S)
    : result S :=
  match l with
  | [] => OK s
  | a :: l' => s' <- body a s ;; for_fold l' body s'
  end.

(** [range(n)]. *)
Definition range (n : nat) : list nat := seq 0 n.

(** What a chain reports for a state: the raw index, or its entry in
    [state_labels]. *)
Inductive value (Label : Type) : Type :=
| State (s : nat)
| Labelled (l : Label).

Arguments State {Label} s.
Arguments Labelled {Label} l.

(** [return state if state_labels is None else state_labels[state]]. *)
Definition report {Label} (state_labels : option (list Label)) (state : nat)
    : result (value Label) :=
  match state_labels with
  | None => OK (State state)
  | Some labels => l <- getitem labels state ;; OK (Labelled l)
  end.

End Py.

Import Py.

(* ================================================================== *)
(** * numpy.random: the global generator *)
(* ================================================================== *)

Module Numpy.

(** numpy's global [RandomState], kept abstract: a state, how
    [np.random.seed] sets it, the 53 random bits behind one
    [random_sample()], and [np.random.binomial]. *)
Class RandomState : Type := {
  rng : Type;
  seed_state : Z -> rng;
  next_double_bits : rng -> N * rng;
  binomial_draw : nat -> Q -> rng -> nat * rng
}.

Section Global.

Context {RS : RandomState}.

(** Code that reads and writes the global generator and may raise. *)
Definition M (A : Type) : Type := rng -> result A * rng.

Definition ret {A} (a : A) : M A := fun g => (OK a, g).

Definition raise {A} (e : exn) : M A := fun g => (Err e, g).

Definition lift {A} (r : result A) : M A := fun g => (r, g).

Definition bindM {A B} (c : M A) (k : A -> M B) : M B :=
  fun g =>
    match c g with
    | (OK a, g') => k a g'
    | (Err e, g') => (Err e, g')
    end.

(** [np.random.seed(s)]. *)
Definition seed (s : Z) : M unit := fun _ => (OK tt, seed_state s).

Definition two53 : positive := Pos.pow 2 53.

(** [random_sample()]: 53 random bits over [2^53], a number in [[0, 1)]. *)
Definition random_sample : M Q :=
  fun g =>
    let '(k, g') := next_double_bits g in
    (OK (Z.of_N (N.modulo k (Npos two53)) # two53), g').

(** [np.random.binomial(n, p)]. *)
Definition binomial (n : nat) (p : Q) : M nat :=
  fun g => let '(k, g') := binomial_draw n p g in (OK k, g').

(** [p.cumsum()]. *)
Fixpoint cumsum_from (acc : Q) (p : list Q) : list Q :=
  match p with
  | [] => []
  | q :: p' => (acc + q)%Q :: cumsum_from (acc + q)%Q p'
  end.

Definition cumsum (p : list Q) : list Q := cumsum_from 0%Q p.

(** [cdf.searchsorted(u, side='right')] on a sorted array: the number of
    entries that are [<= u]. *)
Definition searchsorted_right (cdf : list Q) (u : Q) : nat :=
  List.length (filter (fun c => Qle_bool c u) cdf).

(** The tolerance of [choice]: [sqrt(eps)], which is [2^-26]. *)
Definition atol : Q := 1 # (Pos.pow 2 26).

Local Open Scope string_scope.

(** [np.random.choice(range(m), p=p)], one draw with replacement: check
    [p], then invert the normalised cumulative sums at one uniform
    sample. *)
Definition choice (m : nat) (p : list Q) : M nat :=
  if (m =? 0)%nat then raise (ValueError "a must be non-empty")
  else if negb (List.length p =? m)%nat
  then raise (ValueError "a and p must have same size")
  else if existsb (fun q => Qltb q 0) p
  then raise (ValueError "probabilities are not non-negative")
  else if Qltb atol (Qabs (py_sum p - 1))
  then raise (ValueError "probabilities do not sum to 1")
  else
    let cdf := cumsum p in
    let cdf := map (fun c => (c / last cdf 0)%Q) cdf in
    bindM random_sample (fun u => ret (searchsorted_right cdf u)).

End Global.

Notation "x <~ c ;; k" := (bindM c (fun x => k))
  (at level 61, c at next level, right associativity).
Notation "c ;;~ k" := (bindM c (fun _ => k))
  (at level 61, right associativity).

(** A small linear congruential generator, to run the definitions. *)
Definition lcg_next (g : Z) : Z := ((1103515245 * g + 12345) mod 2 ^ 31)%Z.

Definition lcg_binomial_step (p : Q) (acc : nat * Z) : nat * Z :=
  let '(k, g) := acc in
  let g' := lcg_next g in
  (if Qltb (g' # Pos.pow 2 31) p then S k else k, g').

Definition LCG : RandomState := {|
  rng := Z;
  seed_state := fun s => (s mod 2 ^ 31)%Z;
  next_double_bits := fun g =>
    let g' := lcg_next g in (Z.to_N (g' * 2 ^ 22), g');
  binomial_draw := fun n p g => Nat.iter n (lcg_binomial_step p) (0%nat, g)
|}.

End Numpy.

Import Numpy.

(* ================================================================== *)
(** * RandomProcess *)
(* ================================================================== *)

Module RandomProcess.

Local Open Scope Q_scope.

(** Modelled from the spec: [random_processes.py] ([RandomProcess],
    [TimeIndex]) is not among the sources.  A time domain is discrete
    with a sampling rate, or continuous; the sources build
    [TimeIndex(fs=1)] and [TimeIndex(fs=float("inf"))]. *)
Inductive TimeIndex : Type :=
| Discrete (fs : Q)
| Continuous.

(** Modelled from the spec: a process couples a time domain with an
    evaluation rule from a drawn outcome and a time to a value.  The
    rule's answer is [None] when its loop is cut off by lack of fuel.
    (The sample space plays no part in evaluating at a time and is left
    out.) *)
Record process (Outcome Value : Type) : Type := {
  timeIndex : TimeIndex;
  rule : Outcome -> Q -> option (result Value)
}.

(** [time] is a multiple of [1/fs]. *)
Definition aligned (fs time : Q) : bool :=
  Qeq_bool (inject_Z (Qfloor (time * fs))) (time * fs).

(** Modelled from the spec: [at(outcome, time)] invokes the evaluation
    rule; it fails with [DomainError] if [time] is negative, or if the
    time domain is discrete and [time] is not a multiple of [1/rate]. *)
Definition at_ {Outcome Value} (P : process Outcome Value)
    (outcome : Outcome) (time : Q) : option (result Value) :=
  if Qltb time 0 then Some (Err DomainError)
  else
    match timeIndex P with
    | Discrete fs =>
        if aligned fs time then rule P outcome time
        else Some (Err DomainError)
    | Continuous => rule P outcome time
    end.

(** [int(n)] for a time that is not negative. *)
Definition index_of (time : Q) : nat := Z.to_nat (Qfloor time).

End RandomProcess.

Import RandomProcess.

(* ================================================================== *)
(** * MarkovChain (discrete time) *)
(* ================================================================== *)

Module MarkovChain.

Section Chain.

Context {RS : RandomState} {Label : Type}.

Variables (transition_matrix : list (list Q)) (initial_dist : list Q)
          (state_labels : option (list Label)).

(** [m = len(initial_dist)]. *)
Definition m : nat := List.length initial_dist.

(** [for _ in range(k): state = np.random.choice(range(m), p=transition_matrix[state])]. *)
Fixpoint walk (k : nat) (state : nat) : M nat :=
  match k with
  | O => ret state
  | S k' =>
      p <~ lift (getitem transition_matrix state) ;;
      state' <~ choice m p ;;
      walk k' state'
  end.

(** The index rule [x(n)] of one draw, given the draw's [seed]. *)
Definition x (seed : Z) (n : nat) : M (value Label) :=
  Numpy.seed seed ;;~
  state <~ choice m initial_dist ;;
  state <~ walk n state ;;
  lift (report state_labels state).

End Chain.

(** [fun(x, n)]: [x[n]], on a drawn sequence [x]. *)
Definition fun_ {Label} (x : nat -> result (value Label)) (n : nat)
    : result (value Label) :=
  x n.

(** [RandomProcess(ProbabilitySpace(draw), TimeIndex(fs=1), fun)]. *)
Definition as_process {Label}
    : process (nat -> result (value Label)) (value Label) :=
  {| timeIndex := Discrete 1;
     rule := fun x t => Some (fun_ x (index_of t)) |}.

End MarkovChain.

(* ================================================================== *)
(** * ContinuousTimeMarkovChain *)
(* ================================================================== *)

Module CTMC.

Local Open Scope string_scope.

Definition msg_row_sum : string := "Rows of a generator matrix must sum to 0.".
Definition msg_diagonal : string :=
  "Diagonal elements of a generator matrix " ++ "cannot be positive.".
Definition msg_off_diagonal : string :=
  "Off-diagonal elements of a generator matrix " ++ "cannot be negative.".

Local Open Scope Q_scope.

Definition matrix : Type := list (list Q).

(** The inner loop of [check_generator], for row [i]. *)
Definition check_entry (i : nat) (jq : nat * Q) : result unit :=
  let '(j, q) := jq in
  if (j =? i)%nat
  then raise_if (Qltb 0 q) (Exception msg_diagonal)
  else raise_if (Qltb q 0) (Exception msg_off_diagonal).

Definition check_row (ir : nat * list Q) : result unit :=
  let '(i, row) := ir in
  raise_if (negb (Qeq_bool (py_sum row) 0)) (Exception msg_row_sum) ;;;
  for_each (enumerate row) (check_entry i).

(** [check_generator(self)]. *)
Definition check_generator (generator_matrix : matrix) : result unit :=
  for_each (enumerate generator_matrix) check_row.

(** One row of the embedded chain:
    [rate = -row[i]; [p / rate if j != i else 0 for j, p in enumerate(row)]]. *)
Definition transition_entry (i : nat) (rate : Q) (jp : nat * Q) : result Q :=
  let '(j, p) := jp in
  if negb (j =? i)%nat then py_div p rate else OK 0.

Definition transition_row (ir : nat * list Q) : result (list Q) :=
  let '(i, row) := ir in
  d <- getitem row i ;;
  let rate := - d in
  list_comp (enumerate row) (transition_entry i rate).

Definition derive_transition_matrix (generator_matrix : matrix) : result matrix :=
  list_comp (enumerate generator_matrix) transition_row.

(** The embedded chain as the specification states it:
    [P[i][j] = generator[i][j] / rate_i] for [j != i] and [P[i][i] = 0],
    where [rate_i = -generator[i][i]] and [d] is [generator[i][i]]. *)
Definition embedded_entry (i : nat) (d : Q) (jp : nat * Q) : Q :=
  let '(j, p) := jp in
  if (j =? i)%nat then 0 else p / - d.

Definition embedded_row (ir : nat * list Q) : list Q :=
  let '(i, row) := ir in
  map (embedded_entry i (nth i row 0)) (enumerate row).

(** A square matrix: every row is as long as the matrix has rows. *)
Definition square (g : matrix) : Prop :=
  forall row, In row g -> List.length row = List.length g.

(** A row can be turned into a row of the embedded chain: it has a
    diagonal entry, and if that entry is zero it has no other entry. *)
Definition row_derivable (i : nat) (row : list Q) : Prop :=
  exists d, nth_error row i = Some d /\ (d == 0 -> List.length row = 1%nat).

(** The attributes [__init__] sets; [Label] is the type of the entries
    of [state_labels]. *)
Record chain (Label : Type) : Type := {
  generator_matrix : matrix;
  initial_dist : list Q;
  state_labels : option (list Label);
  transition_matrix : matrix
}.

(** [__init__], up to the point where the chain object is complete:
    validate, then derive the embedded transition matrix. *)
Definition init {Label} (g : matrix) (dist : list Q)
    (labels : option (list Label)) : result (chain Label) :=
  check_generator g ;;;
  tm <- derive_transition_matrix g ;;
  OK {| generator_matrix := g; initial_dist := dist;
        state_labels := labels; transition_matrix := tm |}.

(** What the three checks of [check_generator] reject. *)
Definition row_violation (i : nat) (row : list Q) : Prop :=
  ~ py_sum row == 0 \/
  exists j q, nth_error row j = Some q /\
              if (j =? i)%nat then 0 < q else q < 0.

Definition generator_violation (g : matrix) : Prop :=
  exists i row, nth_error g i = Some row /\ row_violation i row.

Definition row_ok (i : nat) (row : list Q) : Prop :=
  py_sum row == 0 /\
  forall j q, nth_error row j = Some q ->
              if (j =? i)%nat then q <= 0 else 0 <= q.

Definition generator_ok (g : matrix) : Prop :=
  forall i row, nth_error g i = Some row -> row_ok i row.

(** One outcome [x]: [x[0]] is the state path, [x[1]] the unit-rate
    exponential draws.

    Modelled from the spec: [InfiniteSequence] ([sequences.py]) is not
    among the sources; indexing a sequence at [n] yields the value of its
    index rule at [n], the same at every query.  The state path is
    produced by code that may raise, the exponential draws are plain
    numbers. *)
Record outcome : Type := {
  states : nat -> result nat;
  times : nat -> Q
}.

Section Rules.

Context {Label : Type}.

Variable self : chain Label.

(** [rate = -self.generator_matrix[state][state]]. *)
Definition rate_of (state : nat) : result Q :=
  row <- getitem (generator_matrix self) state ;;
  d <- getitem row state ;;
  OK (- d).

(** The loop [while True] of [fun(x, t)], entered with the current
    [total_time] and [n]; on [break] it yields the index [n] and the
    [state] it stops at. *)
Fixpoint fun_loop (x : outcome) (t : Q) (fuel : nat) (total_time : Q)
    (n : nat) : option (result (nat * nat)) :=
  match fuel with
  | O => None
  | S fuel' =>
      match states x n with
      | Err e => Some (Err e)
      | OK state =>
          match (rate <- rate_of state ;; py_div (times x n) rate) with
          | Err e => Some (Err e)
          | OK d =>
              let total_time := total_time + d in
              if Qltb t total_time
              then Some (OK (n, state))
              else fun_loop x t fuel' total_time (S n)
          end
      end
  end.

(** [fun(x, t)] of [ContinuousTimeMarkovChain.__init__]. *)
Definition fun_ (x : outcome) (t : Q) (fuel : nat)
    : option (result (value Label)) :=
  match fun_loop x t fuel 0 0%nat with
  | None => None
  | Some (Err e) => Some (Err e)
  | Some (OK (_, state)) => Some (report (state_labels self) state)
  end.

(** The body of the loop of [JumpTimes]: it reads index [n]; the loop
    variable [i] does not occur. *)
Definition JumpTimes_body (x : outcome) (n : nat) (i : nat) (total_time : Q)
    : result Q :=
  state <- states x n ;;
  rate <- rate_of state ;;
  d <- py_div (times x n) rate ;;
  OK (total_time + d).

(** [fun(x, n)] of [JumpTimes]. *)
Definition JumpTimes_fun (x : outcome) (n : nat) : result Q :=
  for_fold (range n) (JumpTimes_body x n) 0.

(** [fun(x, n)] of [InterjumpTimes]. *)
Definition InterjumpTimes_fun (x : outcome) (n : nat) : result Q :=
  state <- states x n ;;
  rate <- rate_of state ;;
  py_div (times x n) rate.

(** The cumulative time of the [n]-th jump as the specification states
    it: the sum of [times[i] / rate(states[i])] for [i] in [0..n-1]. *)
Definition cumulative_jump_time (x : outcome) (n : nat) : result Q :=
  for_fold (range n)
    (fun i total_time => d <- InterjumpTimes_fun x i ;; OK (total_time + d)) 0.

(** [RandomProcess(P_states * P_times, TimeIndex(fs=float("inf")), fun)],
    its loop run with [fuel]. *)
Definition as_process (fuel : nat) : process outcome (value Label) :=
  {| timeIndex := Continuous;
     rule := fun x t => fun_ x t fuel |}.

(** [JumpTimes(self)]. *)
Definition JumpTimes : process outcome Q :=
  {| timeIndex := Discrete 1;
     rule := fun x t => Some (JumpTimes_fun x (index_of t)) |}.

(** [InterjumpTimes(self)]. *)
Definition InterjumpTimes : process outcome Q :=
  {| timeIndex := Discrete 1;
     rule := fun x t => Some (InterjumpTimes_fun x (index_of t)) |}.

End Rules.

End CTMC.

Import CTMC.

(* ================================================================== *)
(** * ContinuousTimeMarkovChain on rounded arithmetic *)
(* ================================================================== *)

Module Rounded.

Local Open Scope Q_scope.

Section Arithmetic.

(** The rounding of a result to a number of the type computed with: the
    nearest double on [float], the identity on [int]. *)
Variable round : Q -> Q.

(** [a + b]. *)
Definition add (a b : Q) : Q := round (a + b).

(** [a * b]. *)
Definition mul (a b : Q) : Q := round (a * b).

(** [a / b]; raises on a zero divisor. *)
Definition div (a b : Q) : result Q :=
  if Qeq_bool b 0 then Err ZeroDivisionError else OK (round (a / b)).

(** [sum(row)]: starts from 0 and adds from the left, rounding at every
    addition. *)
Definition sum (row : list Q) : Q := fold_left add row 0.

Definition check_row (ir : nat * list Q) : result unit :=
  let '(i, row) := ir in
  raise_if (negb (Qeq_bool (sum row) 0)) (Exception msg_row_sum) ;;;
  for_each (enumerate row) (check_entry i).

(** [check_generator(self)]. *)
Definition check_generator (generator_matrix : matrix) : result unit :=
  for_each (enumerate generator_matrix) check_row.

(** [p / rate if j != i else 0]. *)
Definition transition_entry (i : nat) (rate : Q) (jp : nat * Q) : result Q :=
  let '(j, p) := jp in
  if negb (j =? i)%nat then div p rate else OK 0.

(** [rate = -row[i]] and the comprehension over the row. *)
Definition transition_row (ir : nat * list Q) : result (list Q) :=
  let '(i, row) := ir in
  d <- getitem row i ;;
  let rate := - d in
  list_comp (enumerate row) (transition_entry i rate).

Definition derive_transition_matrix (generator_matrix : matrix) : result matrix :=
  list_comp (enumerate generator_matrix) transition_row.

(** [__init__], up to the point where the chain object is complete. *)
Definition init {Label} (g : matrix) (dist : list Q)
    (labels : option (list Label)) : result (chain Label) :=
  check_generator g ;;;
  tm <- derive_transition_matrix g ;;
  OK {| generator_matrix := g; initial_dist := dist;
        state_labels := labels; transition_matrix := tm |}.

(** What the three checks reject, on the sum as computed. *)
Definition row_violation (i : nat) (row : list Q) : Prop :=
  ~ sum row == 0 \/
  exists j q, nth_error row j = Some q /\
              if (j =? i)%nat then 0 < q else q < 0.

Definition generator_violation (g : matrix) : Prop :=
  exists i row, nth_error g i = Some row /\ row_violation i row.

(** What a row that passes has: a computed sum of zero, and the signs. *)
Definition row_ok (i : nat) (row : list Q) : Prop :=
  sum row == 0 /\
  forall j q, nth_error row j = Some q ->
              if (j =? i)%nat then q <= 0 else 0 <= q.

Section Rules.

Context {Label : Type}.

Variable self : chain Label.

(** [fun(x, n)] of [InterjumpTimes]: [times[n] / rate]. *)
Definition InterjumpTimes_fun (x : outcome) (n : nat) : result Q :=
  state <- states x n ;;
  rate <- rate_of self state ;;
  div (times x n) rate.

(** The loop [while True] of [fun(x, t)], entered with the current
    [total_time] and [n]; on [break] it yields the index [n] and the
    [state] it stops at. *)
Fixpoint fun_loop (x : outcome) (t : Q) (fuel : nat) (total_time : Q)
    (n : nat) : option (result (nat * nat)) :=
  match fuel with
  | O => None
  | S fuel' =>
      match states x n with
      | Err e => Some (Err e)
      | OK state =>
          match (rate <- rate_of self state ;; div (times x n) rate) with
          | Err e => Some (Err e)
          | OK d =>
              let total_time := add total_time d in
              if Qltb t total_time
              then Some (OK (n, state))
              else fun_loop x t fuel' total_time (S n)
          end
      end
  end.

(** The value of [total_time] in [fun(x, t)] after [n] passes of the
    loop: the holding times at indices [0..n-1], added up in that order
    from 0. *)
Definition running_total (x : outcome) (n : nat) : result Q :=
  for_fold (range n)
    (fun i total_time => d <- InterjumpTimes_fun x i ;; OK (add total_time d)) 0.

(** The body of the loop of [JumpTimes]: it reads index [n]; the loop
    variable [i] does not occur. *)
Definition JumpTimes_body (x : outcome) (n : nat) (i : nat) (total_time : Q)
    : result Q :=
  state <- states x n ;;
  rate <- rate_of self state ;;
  d <- div (times x n) rate ;;
  OK (add total_time d).

(** [fun(x, n)] of [JumpTimes]. *)
Definition JumpTimes_fun (x : outcome) (n : nat) : result Q :=
  for_fold (range n) (JumpTimes_body x n) 0.

End Rules.

End Arithmetic.

End Rounded.

(* ================================================================== *)
(** * Bernoulli *)
(* ================================================================== *)

Module Bernoulli.

Local Open Scope string_scope.

(** A [Bernoulli] object: its attribute [p], which is set or absent. *)
Record t : Type := { p : option Q }.

(** [__init__(self, p)]: the [else] branch is [pass]. *)
Definition init (p0 : Q) : result t :=
  if Qle_bool 0 p0 && Qle_bool p0 1
  then OK {| p := Some p0 |}
  else OK {| p := None |}.

(** [draw(self)]: reading [self.p] raises when the attribute is absent. *)
Definition draw {RS : RandomState} (self : t) : M nat :=
  match p self with
  | Some p0 => binomial 1 p0
  | None => raise (AttributeError "p")
  end.

End Bernoulli.

(* ================================================================== *)
(** * Concrete chains and outcomes *)
(* ================================================================== *)

Module Examples.

Local Open Scope Q_scope.

(** The two-state generator [[[-1, 1], [1, -1]]] with [initial_dist = [1, 0]]. *)
Definition flip_flop : chain unit :=
  {| generator_matrix := [[-1; 1]; [1; -1]];
     initial_dist := [1; 0];
     state_labels := None;
     transition_matrix := [[0; 1]; [1; 0]] |}.

(** A path of [flip_flop]: the states alternate from 0, the unit-rate
    draws are 1, 5, 1, 1, ... *)
Definition flip_flop_outcome : outcome :=
  {| states := fun n => OK (n mod 2)%nat;
     times := fun n => match n with 1%nat => 5 | _ => 1 end |}.

(** The one-state generator [[[0]]] with [initial_dist = [1]]: a single
    absorbing state. *)
Definition absorbing : chain unit :=
  {| generator_matrix := [[0]];
     initial_dist := [1];
     state_labels := None;
     transition_matrix := [[0]] |}.

(** A path of [absorbing]: always state 0; the unit-rate draws are 1. *)
Definition absorbing_outcome : outcome :=
  {| states := fun _ => OK 0%nat;
     times := fun _ => 1 |}.

(** A generator with an absorbing state 0 and a second state. *)
Definition absorbing2 : matrix := [[0; 0]; [1; -1]].

End Examples.

(* ================================================================== *)
(** * Further distributions *)
(* ================================================================== *)

Module Distributions.

Local Open Scope string_scope.
Local Open Scope Q_scope.

(** The standard samples behind [np.random.exponential],
    [np.random.gamma] and [np.random.negative_binomial], kept abstract.
    A standard exponential or gamma sample is not negative; the negative
    binomial sample is the integer numpy returns, of which nothing is
    assumed. *)
Class Samplers (RS : RandomState) : Type := {
  standard_exponential : rng -> Q * rng;
  standard_exponential_nonneg :
    forall g, 0 <= fst (standard_exponential g);
  standard_gamma : Q -> rng -> Q * rng;
  standard_gamma_nonneg :
    forall shape g, 0 <= fst (standard_gamma shape g);
  negative_binomial_count : Z -> Q -> rng -> Z * rng
}.

Section Draws.

Context {RS : RandomState} {SA : Samplers RS}.

(** [np.random.exponential(scale)]: refuses a negative scale, else
    scales a standard exponential sample. *)
Definition exponential (scale : Q) : M Q :=
  if Qltb scale 0 then raise (ValueError "scale < 0")
  else fun g =>
    let '(e, g') := standard_exponential g in (OK (scale * e), g').

(** [np.random.gamma(shape, scale)]: refuses a negative shape or scale,
    else scales a standard gamma sample. *)
Definition gamma (shape scale : Q) : M Q :=
  if Qltb shape 0 then raise (ValueError "shape < 0")
  else if Qltb scale 0 then raise (ValueError "scale < 0")
  else fun g =>
    let '(e, g') := standard_gamma shape g in (OK (scale * e), g').

(** [np.random.negative_binomial(n, p)]: refuses [n <= 0], [p < 0] and
    [p > 1]. *)
Definition negative_binomial (n : Z) (p : Q) : M Z :=
  if (n <=? 0)%Z then raise (ValueError "n <= 0")
  else if Qltb p 0 then raise (ValueError "p < 0")
  else if Qltb 1 p then raise (ValueError "p > 1")
  else fun g =>
    let '(k, g') := negative_binomial_count n p g in (OK k, g').

(** [Exponential]: the attributes [scale] (or [None]) and [rate]. *)
Record Exponential : Type := {
  Exponential_scale : option Q;
  Exponential_rate : Q
}.

(** [Exponential.__init__(self, rate=1.0, scale=None)]. *)
Definition Exponential_init (rate : Q) (scale : option Q) : Exponential :=
  {| Exponential_scale := scale; Exponential_rate := rate |}.

(** [Exponential.draw(self)]. *)
Definition Exponential_draw (self : Exponential) : M Q :=
  match Exponential_scale self with
  | None =>
      scale <~ lift (py_div 1 (Exponential_rate self)) ;;
      exponential scale
  | Some scale => exponential scale
  end.

(** [Gamma]: the attributes [shape], [scale] (or [None]) and [rate]. *)
Record Gamma : Type := {
  Gamma_shape : Q;
  Gamma_scale : option Q;
  Gamma_rate : Q
}.

(** [Gamma.__init__(self, shape, rate=1.0, scale=None)]. *)
Definition Gamma_init (shape rate : Q) (scale : option Q) : Gamma :=
  {| Gamma_shape := shape; Gamma_scale := scale; Gamma_rate := rate |}.

(** [Gamma.draw(self)]. *)
Definition Gamma_draw (self : Gamma) : M Q :=
  match Gamma_scale self with
  | None =>
      scale <~ lift (py_div 1 (Gamma_rate self)) ;;
      gamma (Gamma_shape self) scale
  | Some scale => gamma (Gamma_shape self) scale
  end.

(** [NegativeBinomial], and [Pascal] which inherits its [__init__]: the
    attributes [r] and [p]. *)
Record NegativeBinomial : Type := {
  NegativeBinomial_r : Z;
  NegativeBinomial_p : Q
}.

(** [NegativeBinomial.__init__(self, r, p)]. *)
Definition NegativeBinomial_init (r : Z) (p : Q) : NegativeBinomial :=
  {| NegativeBinomial_r := r; NegativeBinomial_p := p |}.

(** [NegativeBinomial.draw(self)]:
    [self.r + np.random.negative_binomial(n=self.r, p=self.p)]. *)
Definition NegativeBinomial_draw (self : NegativeBinomial) : M Z :=
  k <~ negative_binomial (NegativeBinomial_r self) (NegativeBinomial_p self) ;;
  ret (NegativeBinomial_r self + k)%Z.

(** [Pascal.draw(self)]: the override, without [self.r]. *)
Definition Pascal_draw (self : NegativeBinomial) : M Z :=
  negative_binomial (NegativeBinomial_r self) (NegativeBinomial_p self).

(** [np.random.exponential(scale)] and [Exponential.draw(self)] with the
    rounding of the product and of [1. / self.rate] kept. *)
Definition exponential_rounded (round : Q -> Q) (scale : Q) : M Q :=
  if Qltb scale 0 then raise (ValueError "scale < 0")
  else fun g =>
    let '(e, g') := standard_exponential g in
    (OK (Rounded.mul round scale e), g').

Definition Exponential_draw_rounded (round : Q -> Q) (self : Exponential)
    : M Q :=
  match Exponential_scale self with
  | None =>
      scale <~ lift (Rounded.div round 1 (Exponential_rate self)) ;;
      exponential_rounded round scale
  | Some scale => exponential_rounded round scale
  end.

End Draws.

(** Samplers on the linear congruential generator, to run the
    definitions. *)
Definition lcg_sample (g : Z) : Q * Z :=
  let g' := lcg_next g in (Z.abs g' # Pos.pow 2 29, g').

Lemma lcg_sample_nonneg (g : Z) : 0 <= fst (lcg_sample g).
Proof.
  unfold lcg_sample, Qle. cbn [fst Qnum Qden].
  rewrite Z.mul_1_r. cbn [Z.mul]. apply Z.abs_nonneg.
Qed.

Definition LCG_samplers : Samplers LCG :=
  @Build_Samplers LCG
    lcg_sample lcg_sample_nonneg
    (fun _ => lcg_sample) (fun _ => lcg_sample_nonneg)
    (fun _ _ g => let g' := lcg_next g in ((g' mod 5)%Z, g')).

(** [MultivariateNormal], and [BivariateNormal] which sets the same two
    attributes: [mean] and [cov]. *)
Record MultivariateNormal : Type := {
  mean : list Q;
  cov : list (list Q)
}.

Definition msg_dimension : string :=
  "The dimension of the mean vector" ++
  "is not compatible with the dimensions" ++
  "of the covariance matrix.".

(** [MultivariateNormal.__init__(self, mean, cov)]. *)
Definition MultivariateNormal_init (mean0 : list Q) (cov0 : list (list Q))
    : result MultivariateNormal :=
  raise_if (negb (List.length mean0 =? List.length cov0)%nat)
           (Exception msg_dimension) ;;;
  OK {| mean := mean0; cov := cov0 |}.

(** What [BivariateNormal.__init__] can end in: a value, one of the
    exceptions of [Py], or the [TypeError] of multiplying [None]. *)
Inductive ending (A : Type) : Type :=
| Returned (a : A)
| Raised (e : exn)
| RaisedTypeError.

Arguments Returned {A} a.
Arguments Raised {A} e.
Arguments RaisedTypeError {A}.

Definition msg_correlation : string :=
  "Correlation must be " ++ "between -1 and 1.".

(** [BivariateNormal.__init__(self, mean1, mean2, sd1, sd2, corr, var1,
    var2, cov)]; [np_sqrt] stands for [np.sqrt].  The parent's
    [__init__] is not called. *)
Definition BivariateNormal_init (np_sqrt : Q -> Q)
    (mean1 mean2 sd1 sd2 : Q) (corr var1 var2 cov0 : option Q)
    : ending MultivariateNormal :=
  if match corr with
     | Some c => negb (Qle_bool (-1) c && Qltb c 1)
     | None => false
     end
  then Raised (Exception msg_correlation)
  else
    let var1 := match var1 with None => sd1 ^ 2 | Some v => v end in
    let var2 := match var2 with None => sd2 ^ 2 | Some v => v end in
    match cov0, corr with
    | Some c, _ =>
        Returned {| mean := [mean1; mean2];
                    cov := [[var1; c]; [c; var2]] |}
    | None, Some r =>
        let c := r * np_sqrt (var1 * var2) in
        Returned {| mean := [mean1; mean2];
                    cov := [[var1; c]; [c; var2]] |}
    | None, None => RaisedTypeError
    end.

End Distributions.

(* ================================================================== *)
(** * Facts about the runtime *)
(* ================================================================== *)

Lemma Qltb_true (a b : Q) : Qltb a b = true <-> (a < b)%Q.
Proof.
  unfold Qltb. rewrite negb_true_iff. split.
  - intros H. apply Qnot_le_lt. intros Hle.
    apply Qle_bool_iff in Hle. congruence.
  - intros H. destruct (Qle_bool b a) eqn:E; trivial.
    apply Qle_bool_iff in E. exfalso. exact (Qlt_not_le _ _ H E).
Qed.

Lemma Qltb_false (a b : Q) : Qltb a b = false <-> (b <= a)%Q.
Proof.
  unfold Qltb. rewrite negb_false_iff. apply Qle_bool_iff.
Qed.

Lemma result_unit_cases (r : result unit) : r = OK tt \/ exists e, r = Err e.
Proof.
  destruct r as [[]|e]; [left; reflexivity | right; exists e; reflexivity].
Qed.

Lemma raise_if_OK (c : bool) (e : exn) : raise_if c e = OK tt <-> c = false.
Proof.
  unfold raise_if. destruct c; split; congruence.
Qed.

Lemma raise_if_Err (c : bool) (e e' : exn) :
  raise_if c e = Err e' <-> c = true /\ e' = e.
Proof.
  unfold raise_if. destruct c; split; intros H.
  - split; congruence.
  - destruct H; congruence.
  - discriminate.
  - destruct H; discriminate.
Qed.

Lemma for_each_OK {A} (l : list A) (body : A -> result unit) :
  for_each l body = OK tt <-> forall a, In a l -> body a = OK tt.
Proof.
  induction l as [|a l IH]; simpl.
  - split; [intros _ a [] | reflexivity].
  - destruct (body a) as [[]|e] eqn:E; simpl.
    + rewrite IH. split.
      * intros H b [<-|Hb]; auto.
      * intros H b Hb. apply H. right. exact Hb.
    + split; [discriminate|].
      intros H. specialize (H a (or_introl eq_refl)). congruence.
Qed.

Lemma for_each_Err {A} (l : list A) (body : A -> result unit) (e : exn) :
  for_each l body = Err e -> exists a, In a l /\ body a = Err e.
Proof.
  induction l as [|a l IH]; simpl; [discriminate|].
  destruct (body a) as [[]|e'] eqn:E; simpl; intros H.
  - destruct (IH H) as (b & Hb & Hbe). exists b. auto.
  - exists a. split; [left; reflexivity | congruence].
Qed.

Lemma In_enumerate_from {A} (l : list A) (k i : nat) (a : A) :
  In (i, a) (enumerate_from k l) <->
  exists j, i = (k + j)%nat /\ nth_error l j = Some a.
Proof.
  revert k. induction l as [|b l IH]; intros k; simpl.
  - split; [intros [] | intros (j & _ & H); destruct j; discriminate].
  - rewrite IH. split.
    + intros [H | (j & -> & Hj)].
      * inversion H; subst. exists 0%nat. split; [lia | reflexivity].
      * exists (S j). split; [lia | exact Hj].
    + intros ([|j] & -> & Hj); simpl in Hj.
      * left. inversion Hj. f_equal. lia.
      * right. exists j. split; [lia | exact Hj].
Qed.

Lemma In_enumerate {A} (l : list A) (i : nat) (a : A) :
  In (i, a) (enumerate l) <-> nth_error l i = Some a.
Proof.
  unfold enumerate. rewrite In_enumerate_from. split.
  - intros (j & -> & Hj). exact Hj.
  - intros H. exists i. auto.
Qed.

Lemma enumerate_from_length {A} (l : list A) (k : nat) :
  List.length (enumerate_from k l) = List.length l.
Proof.
  revert k. induction l as [|a l IH]; intros k; simpl; [|rewrite IH]; reflexivity.
Qed.

Lemma nth_error_enumerate_from {A} (l : list A) (k j : nat) :
  nth_error (enumerate_from k l) j =
  option_map (fun a => ((k + j)%nat, a)) (nth_error l j).
Proof.
  revert k j. induction l as [|a l IH]; intros k [|j]; simpl; trivial.
  - do 2 f_equal. lia.
  - rewrite IH. destruct (nth_error l j); simpl; trivial.
    do 2 f_equal. lia.
Qed.

(** A comprehension that raises nowhere yields the list of its values,
    entry by entry. *)
Lemma list_comp_OK {A B} (l : list A) (f : A -> result B) (g : A -> B) :
  (forall a, In a l -> f a = OK (g a)) -> list_comp l f = OK (map g l).
Proof.
  induction l as [|a l IH]; simpl; intros H; trivial.
  rewrite (H a (or_introl eq_refl)). simpl.
  rewrite IH; [reflexivity|]. intros b Hb. apply H. right. exact Hb.
Qed.

(** A comprehension whose entries can raise nothing but [e], and one of
    which does, raises [e]. *)
Lemma list_comp_Err {A B} (l : list A) (f : A -> result B) (e : exn) :
  (forall a, In a l -> (exists v, f a = OK v) \/ f a = Err e) ->
  (exists a, In a l /\ f a = Err e) ->
  list_comp l f = Err e.
Proof.
  induction l as [|b l IH]; simpl; intros Hall (a & Hin & Ha); [contradiction|].
  destruct (Hall b (or_introl eq_refl)) as [[v Hv] | Hb].
  - rewrite Hv. simpl. rewrite IH; trivial.
    + intros c Hc. apply Hall. right. exact Hc.
    + destruct Hin as [<- | Hin]; [congruence|]. exists a. auto.
  - rewrite Hb. reflexivity.
Qed.

(* ================================================================== *)
(** * check_generator *)
(* ================================================================== *)

Lemma check_entry_OK (i j : nat) (q : Q) :
  check_entry i (j, q) = OK tt <->
  if (j =? i)%nat then (q <= 0)%Q else (0 <= q)%Q.
Proof.
  unfold check_entry. destruct (j =? i)%nat;
    rewrite raise_if_OK, Qltb_false; reflexivity.
Qed.

Lemma check_entry_Err (i j : nat) (q : Q) (e : exn) :
  check_entry i (j, q) = Err e ->
  (if (j =? i)%nat then (0 < q)%Q else (q < 0)%Q) /\
  (e = Exception msg_diagonal \/ e = Exception msg_off_diagonal).
Proof.
  unfold check_entry. destruct (j =? i)%nat;
    rewrite raise_if_Err, Qltb_true; intros [H ->]; auto.
Qed.

Lemma check_row_OK (i : nat) (row : list Q) :
  check_row (i, row) = OK tt <-> row_ok i row.
Proof.
  unfold check_row, row_ok.
  destruct (Qeq_bool (py_sum row) 0) eqn:E; simpl.
  - apply Qeq_bool_iff in E. rewrite for_each_OK. split.
    + intros H. split; [exact E|]. intros j q Hj.
      apply check_entry_OK. apply H. apply In_enumerate. exact Hj.
    + intros [_ H] [j q] Hj. apply check_entry_OK. apply H.
      apply In_enumerate. exact Hj.
  - split; [discriminate|]. intros [H _].
    apply Qeq_bool_iff in H. congruence.
Qed.

Lemma check_row_Err (i : nat) (row : list Q) (e : exn) :
  check_row (i, row) = Err e ->
  row_violation i row /\
  (e = Exception msg_row_sum \/ e = Exception msg_diagonal \/
   e = Exception msg_off_diagonal).
Proof.
  unfold check_row, row_violation.
  destruct (Qeq_bool (py_sum row) 0) eqn:E; simpl.
  - intros H. apply for_each_Err in H. destruct H as ([j q] & Hin & Hq).
    apply In_enumerate in Hin. apply check_entry_Err in Hq.
    destruct Hq as [Hq He]. split; [|tauto].
    right. exists j, q. auto.
  - intros H. inversion H; subst. split; [|auto].
    left. intros Hs. apply Qeq_bool_iff in Hs. congruence.
Qed.

Lemma check_generator_OK (g : matrix) :
  check_generator g = OK tt <-> generator_ok g.
Proof.
  unfold check_generator, generator_ok. rewrite for_each_OK. split.
  - intros H i row Hi. apply check_row_OK. apply H.
    apply In_enumerate. exact Hi.
  - intros H [i row] Hi. apply check_row_OK. apply H.
    apply In_enumerate. exact Hi.
Qed.

Lemma check_generator_Err (g : matrix) (e : exn) :
  check_generator g = Err e ->
  generator_violation g /\
  (e = Exception msg_row_sum \/ e = Exception msg_diagonal \/
   e = Exception msg_off_diagonal).
Proof.
  unfold check_generator, generator_violation. intros H.
  apply for_each_Err in H. destruct H as ([i row] & Hin & Hr).
  apply In_enumerate in Hin. apply check_row_Err in Hr.
  destruct Hr as [Hv He]. split; [|exact He]. exists i, row. auto.
Qed.

Lemma row_ok_no_violation (i : nat) (row : list Q) :
  row_ok i row -> row_violation i row -> False.
Proof.
  intros [Hs He] [Hv | (j & q & Hj & Hq)]; [auto|].
  specialize (He j q Hj). destruct (j =? i)%nat.
  - exact (Qlt_not_le _ _ Hq He).
  - exact (Qlt_not_le _ _ Hq He).
Qed.

Lemma generator_ok_no_violation (g : matrix) :
  generator_ok g -> generator_violation g -> False.
Proof.
  intros Hok (i & row & Hi & Hv).
  exact (row_ok_no_violation (Hok i row Hi) Hv).
Qed.

(** *** On rounded arithmetic *)

Section RoundedChecks.

Variable round : Q -> Q.

Lemma rounded_check_row_OK (i : nat) (row : list Q) :
  Rounded.check_row round (i, row) = OK tt <-> Rounded.row_ok round i row.
Proof.
  unfold Rounded.check_row, Rounded.row_ok.
  destruct (Qeq_bool (Rounded.sum round row) 0) eqn:E; simpl.
  - apply Qeq_bool_iff in E. rewrite for_each_OK. split.
    + intros H. split; [exact E|]. intros j q Hj.
      apply check_entry_OK. apply H. apply In_enumerate. exact Hj.
    + intros [_ H] [j q] Hj. apply check_entry_OK. apply H.
      apply In_enumerate. exact Hj.
  - split; [discriminate|]. intros [H _].
    apply Qeq_bool_iff in H. congruence.
Qed.

Lemma rounded_check_row_Err (i : nat) (row : list Q) (e : exn) :
  Rounded.check_row round (i, row) = Err e ->
  Rounded.row_violation round i row /\
  (e = Exception msg_row_sum \/ e = Exception msg_diagonal \/
   e = Exception msg_off_diagonal).
Proof.
  unfold Rounded.check_row, Rounded.row_violation.
  destruct (Qeq_bool (Rounded.sum round row) 0) eqn:E; simpl.
  - intros H. apply for_each_Err in H. destruct H as ([j q] & Hin & Hq).
    apply In_enumerate in Hin. apply check_entry_Err in Hq.
    destruct Hq as [Hq He]. split; [|tauto].
    right. exists j, q. auto.
  - intros H. inversion H; subst. split; [|auto].
    left. intros Hs. apply Qeq_bool_iff in Hs. congruence.
Qed.

Lemma rounded_check_generator_OK (g : matrix) :
  Rounded.check_generator round g = OK tt <->
  forall i row, nth_error g i = Some row -> Rounded.row_ok round i row.
Proof.
  unfold Rounded.check_generator. rewrite for_each_OK. split.
  - intros H i row Hi. apply rounded_check_row_OK. apply H.
    apply In_enumerate. exact Hi.
  - intros H [i row] Hi. apply rounded_check_row_OK. apply H.
    apply In_enumerate. exact Hi.
Qed.

Lemma rounded_check_generator_Err (g : matrix) (e : exn) :
  Rounded.check_generator round g = Err e ->
  Rounded.generator_violation round g /\
  (e = Exception msg_row_sum \/ e = Exception msg_diagonal \/
   e = Exception msg_off_diagonal).
Proof.
  unfold Rounded.check_generator, Rounded.generator_violation. intros H.
  apply for_each_Err in H. destruct H as ([i row] & Hin & Hr).
  apply In_enumerate in Hin. apply rounded_check_row_Err in Hr.
  destruct Hr as [Hv He]. split; [|exact He]. exists i, row. auto.
Qed.

Lemma rounded_ok_no_violation (g : matrix) :
  (forall i row, nth_error g i = Some row -> Rounded.row_ok round i row) ->
  Rounded.generator_violation round g -> False.
Proof.
  intros Hok (i & row & Hi & Hv). destruct (Hok i row Hi) as [Hs He].
  destruct Hv as [Hv | (j & q & Hj & Hq)]; [auto|].
  specialize (He j q Hj). destruct (j =? i)%nat.
  - exact (Qlt_not_le _ _ Hq He).
  - exact (Qlt_not_le _ _ Hq He).
Qed.

End RoundedChecks.

(** With the identity as rounding, the rounded embedding is the exact
    one. *)
Lemma rounded_check_generator_exact (g : matrix) :
  Rounded.check_generator (fun q => q) g = check_generator g.
Proof. reflexivity. Qed.

Lemma rounded_init_exact {Label} (g : matrix) (dist : list Q)
    (labels : option (list Label)) :
  Rounded.init (fun q => q) g dist labels = init g dist labels.
Proof. reflexivity. Qed.

(** ** C2 *)

(** C2, as the claim states it, fails: the generator [[[-2, 1, 2]]]
    violates the row-sum rule and construction does fail, but with the
    plain [Exception] and its fixed message; no [InvalidGeneratorError]
    naming a row, a column and a value is raised. *)
Lemma C2_counterexample :
  generator_violation [[-2; 1; 2]]%Q /\
  @init unit [[-2; 1; 2]]%Q [1%Q] None = Err (Exception msg_row_sum) /\
  (forall (i j : nat) (v : Q),
     @init unit [[-2; 1; 2]]%Q [1%Q] None <> Err (InvalidGeneratorError i j v)).
Proof.
  split; [|split].
  - exists 0%nat, [-2; 1; 2]%Q. split; [reflexivity|].
    left. vm_compute. discriminate.
  - vm_compute. reflexivity.
  - intros i j v. vm_compute. discriminate.
Qed.

(** C2 (amended): whatever the rounding of the additions in [sum(row)],
    [check_generator] raises if and only if some row [i] breaks one of:
    [sum(row) == 0] on the sum as computed, [row[i] <= 0], [row[j] >= 0]
    for [j != i].  What it raises is a plain [Exception] carrying one of
    three fixed messages (no row, column or value is named).  It runs
    inside construction: when it raises, construction raises the same
    exception, and a chain that was constructed has a generator that
    passed.  On integers, where sums are exact, and taken as row 0:
    [[-2, 1, 1]] passes; [[-2, 1, 2]] and [[-1, -1]] fail the row-sum
    check, [[1, -1]] fails the diagonal check. *)
Theorem C2_check_generator_raises_on_the_computed_sum :
  (forall (round : Q -> Q) (g : matrix),
     ((exists e, Rounded.check_generator round g = Err e) <->
      Rounded.generator_violation round g) /\
     (forall e, Rounded.check_generator round g = Err e ->
        e = Exception msg_row_sum \/ e = Exception msg_diagonal \/
        e = Exception msg_off_diagonal) /\
     (forall (Label : Type) dist (labels : option (list Label)) e,
        Rounded.check_generator round g = Err e ->
        Rounded.init round g dist labels = Err e) /\
     (forall (Label : Type) dist labels (c : chain Label),
        Rounded.init round g dist labels = OK c ->
        Rounded.check_generator round g = OK tt /\ generator_matrix c = g)) /\
  Rounded.check_generator (fun q => q) [[-2; 1; 1]]%Q = OK tt /\
  Rounded.check_generator (fun q => q) [[-2; 1; 2]]%Q
    = Err (Exception msg_row_sum) /\
  Rounded.check_generator (fun q => q) [[1; -1]]%Q
    = Err (Exception msg_diagonal) /\
  Rounded.check_generator (fun q => q) [[-1; -1]]%Q
    = Err (Exception msg_row_sum).
Proof.
  split; [|repeat split; vm_compute; reflexivity].
  intros round g. split; [|split; [|split]].
  - split.
    + intros [e He]. exact (proj1 (@rounded_check_generator_Err round g e He)).
    + intros Hv.
      destruct (result_unit_cases (Rounded.check_generator round g))
        as [Hok | He]; [|exact He].
      exfalso.
      exact (@rounded_ok_no_violation round g
               (proj1 (@rounded_check_generator_OK round g) Hok) Hv).
  - intros e He. exact (proj2 (@rounded_check_generator_Err round g e He)).
  - intros Label dist labels e He. unfold Rounded.init. rewrite He. reflexivity.
  - intros Label dist labels c. unfold Rounded.init.
    destruct (Rounded.check_generator round g) as [[]|e]; simpl; [|discriminate].
    destruct (Rounded.derive_transition_matrix round g) as [tm|e]; simpl;
      [|discriminate].
    intros H. inversion H; subst. auto.
Qed.

(** The amended C2 at the generator [[[-1, -1, 2]]], on integers: its
    violation (a negative off-diagonal entry) is found, and reported with
    the third message. *)
Lemma C2_witness :
  Rounded.generator_violation (fun q => q) [[-1; -1; 2]]%Q /\
  exists e, Rounded.check_generator (fun q => q) [[-1; -1; 2]]%Q = Err e /\
            e = Exception msg_off_diagonal.
Proof.
  assert (Hv : Rounded.generator_violation (fun q => q) [[-1; -1; 2]]%Q).
  { exists 0%nat, [-1; -1; 2]%Q. split; [reflexivity|].
    right. exists 1%nat, (-1)%Q. split; reflexivity. }
  split; [exact Hv|].
  destruct (proj2 (proj1 (proj1
              C2_check_generator_raises_on_the_computed_sum
              (fun q => q) [[-1; -1; 2]]%Q)) Hv) as [e He].
  exists e. split; [exact He|].
  assert (H : Rounded.check_generator (fun q => q) [[-1; -1; 2]]%Q
              = Err (Exception msg_off_diagonal))
    by (vm_compute; reflexivity).
  rewrite H in He. inversion He. reflexivity.
Defined.

(* ================================================================== *)
(** * The embedded transition matrix *)
(* ================================================================== *)

Lemma Qeq_bool_opp_nonzero (d : Q) : ~ (d == 0)%Q -> Qeq_bool (- d) 0 = false.
Proof.
  intros H. destruct (Qeq_bool (- d) 0) eqn:E; trivial.
  apply Qeq_bool_iff in E. exfalso. apply H. lra.
Qed.

Lemma Qeq_bool_opp_zero (d : Q) : (d == 0)%Q -> Qeq_bool (- d) 0 = true.
Proof.
  intros H. apply Qeq_bool_iff. lra.
Qed.

Lemma transition_row_OK (i : nat) (row : list Q) (d : Q) :
  nth_error row i = Some d -> ~ (d == 0)%Q ->
  transition_row (i, row) = OK (map (embedded_entry i d) (enumerate row)).
Proof.
  intros Hd Hnz. unfold transition_row, getitem. rewrite Hd. simpl.
  apply list_comp_OK. intros [j p] _. unfold transition_entry, embedded_entry.
  destruct (j =? i)%nat; simpl; trivial.
  unfold py_div. rewrite (Qeq_bool_opp_nonzero Hnz). reflexivity.
Qed.

Lemma derive_transition_matrix_OK (g : matrix) :
  (forall i row, nth_error g i = Some row ->
     exists d, nth_error row i = Some d /\ (d < 0)%Q) ->
  derive_transition_matrix g = OK (map embedded_row (enumerate g)).
Proof.
  intros Hdiag. unfold derive_transition_matrix. apply list_comp_OK.
  intros [i row] Hin. apply In_enumerate in Hin.
  destruct (Hdiag i row Hin) as (d & Hd & Hneg).
  unfold embedded_row. rewrite (nth_error_nth _ _ _ Hd).
  apply transition_row_OK; trivial. lra.
Qed.

Lemma nth_error_map_enumerate {A B} (f : nat * A -> B) (l : list A) (j : nat) :
  nth_error (map f (enumerate l)) j =
  option_map (fun a => f (j, a)) (nth_error l j).
Proof.
  rewrite nth_error_map. unfold enumerate. rewrite nth_error_enumerate_from.
  destruct (nth_error l j); reflexivity.
Qed.

(** ** C3 *)

(** C3: for every generator matrix that validation accepts and whose
    diagonal entries are strictly negative, the transition matrix that
    construction derives has, in row [i], the entry
    [generator[i][j] / (-generator[i][i])] at every column [j != i] and
    [0] at column [i]; rows and matrix keep their lengths.  For
    [[[-1, 1], [2, -2]]] the derived matrix is [[[0, 1], [1, 0]]]. *)
Theorem C3_embedded_transition_matrix :
  (forall g : matrix,
     check_generator g = OK tt ->
     (forall i row, nth_error g i = Some row ->
        exists d, nth_error row i = Some d /\ (d < 0)%Q) ->
     exists P,
       derive_transition_matrix g = OK P /\
       List.length P = List.length g /\
       forall i row d,
         nth_error g i = Some row -> nth_error row i = Some d ->
         exists prow,
           nth_error P i = Some prow /\
           List.length prow = List.length row /\
           forall j q, nth_error row j = Some q ->
             nth_error prow j = Some (if (j =? i)%nat then 0 else q / - d)%Q) /\
  (exists P,
     derive_transition_matrix [[-1; 1]; [2; -2]]%Q = OK P /\
     Forall2 (Forall2 Qeq) P [[0; 1]; [1; 0]]%Q).
Proof.
  split.
  - intros g _ Hdiag. exists (map embedded_row (enumerate g)).
    split; [exact (derive_transition_matrix_OK g Hdiag)|].
    split.
    { rewrite length_map. apply enumerate_from_length. }
    intros i row d Hi Hd.
    exists (embedded_row (i, row)). split; [|split].
    + rewrite nth_error_map_enumerate, Hi. reflexivity.
    + unfold embedded_row. rewrite length_map. apply enumerate_from_length.
    + intros j q Hj. unfold embedded_row.
      rewrite nth_error_map_enumerate, Hj. simpl.
      rewrite (nth_error_nth _ _ _ Hd). reflexivity.
  - eexists. split; [vm_compute; reflexivity|].
    repeat constructor; reflexivity.
Qed.

(** C3 at the scenario's generator [[[-1, 1], [2, -2]]]: it is accepted,
    its diagonal is strictly negative, and the derived matrix exists. *)
Lemma C3_witness :
  check_generator [[-1; 1]; [2; -2]]%Q = OK tt /\
  exists P, derive_transition_matrix [[-1; 1]; [2; -2]]%Q = OK P /\
            List.length P = 2%nat.
Proof.
  assert (Hc : check_generator [[-1; 1]; [2; -2]]%Q = OK tt)
    by (vm_compute; reflexivity).
  assert (Hd : forall i row, nth_error [[-1; 1]; [2; -2]]%Q i = Some row ->
                 exists d, nth_error row i = Some d /\ (d < 0)%Q).
  { intros [|[|[|i]]] row H; simpl in H; inversion H; subst.
    - exists (-1)%Q. split; reflexivity.
    - exists (-2)%Q. split; reflexivity. }
  split; [exact Hc|].
  destruct (proj1 C3_embedded_transition_matrix _ Hc Hd) as (P & HP & Hlen & _).
  exists P. split; [exact HP | exact Hlen].
Defined.

(* ================================================================== *)
(** * Absorbing states *)
(* ================================================================== *)

Lemma list_comp_cases {A B} (l : list A) (f : A -> result B) (e : exn) :
  (forall a, In a l -> (exists v, f a = OK v) \/ f a = Err e) ->
  (exists v, list_comp l f = OK v) \/ list_comp l f = Err e.
Proof.
  induction l as [|a l IH]; simpl; intros Hall.
  - left. eexists. reflexivity.
  - destruct (Hall a (or_introl eq_refl)) as [[v ->] | ->]; simpl; [|auto].
    destruct IH as [[vs ->] | ->]; simpl; [| left; eexists; reflexivity | auto].
    intros b Hb. apply Hall. right. exact Hb.
Qed.

Lemma transition_entry_cases (i : nat) (rate : Q) (jp : nat * Q) :
  (exists v, transition_entry i rate jp = OK v) \/
  transition_entry i rate jp = Err ZeroDivisionError.
Proof.
  destruct jp as [j p]. unfold transition_entry, py_div.
  destruct (j =? i)%nat; simpl; [left; eexists; reflexivity|].
  destruct (Qeq_bool rate 0); [auto | left; eexists; reflexivity].
Qed.

Lemma transition_row_cases (i : nat) (row : list Q) :
  (i < List.length row)%nat ->
  (exists v, transition_row (i, row) = OK v) \/
  transition_row (i, row) = Err ZeroDivisionError.
Proof.
  intros Hi. unfold transition_row, getitem.
  destruct (nth_error row i) as [d|] eqn:E.
  - simpl. apply list_comp_cases. intros a _. apply transition_entry_cases.
  - apply nth_error_None in E. lia.
Qed.

(** A row whose diagonal entry is zero and which has another column
    divides by zero. *)
Lemma transition_row_zero_rate (i : nat) (row : list Q) (d : Q) :
  nth_error row i = Some d -> (d == 0)%Q -> (2 <= List.length row)%nat ->
  transition_row (i, row) = Err ZeroDivisionError.
Proof.
  intros Hd Hz Hlen. unfold transition_row, getitem. rewrite Hd. simpl.
  apply list_comp_Err; [intros a _; apply transition_entry_cases|].
  set (j := if (i =? 0)%nat then 1%nat else 0%nat).
  assert (Hj : (j < List.length row)%nat)
    by (unfold j; destruct (i =? 0)%nat; lia).
  assert (Hji : (j =? i)%nat = false).
  { unfold j. destruct (i =? 0)%nat eqn:E.
    - apply Nat.eqb_eq in E. subst. reflexivity.
    - rewrite Nat.eqb_sym. exact E. }
  destruct (nth_error row j) as [p|] eqn:Ep;
    [|apply nth_error_None in Ep; lia].
  exists (j, p). split; [apply In_enumerate; exact Ep|].
  unfold transition_entry, py_div. rewrite Hji. simpl.
  rewrite (Qeq_bool_opp_zero Hz). reflexivity.
Qed.

Lemma derive_transition_matrix_zero_rate (g : matrix) (i : nat)
    (row : list Q) (d : Q) :
  square g -> (2 <= List.length g)%nat ->
  nth_error g i = Some row -> nth_error row i = Some d -> (d == 0)%Q ->
  derive_transition_matrix g = Err ZeroDivisionError.
Proof.
  intros Hsq Hlen Hi Hd Hz. unfold derive_transition_matrix.
  apply list_comp_Err.
  - intros [k r] Hk. apply In_enumerate in Hk.
    apply transition_row_cases.
    rewrite (Hsq r (nth_error_In _ _ Hk)).
    apply nth_error_Some. congruence.
  - exists (i, row). split; [apply In_enumerate; exact Hi|].
    apply transition_row_zero_rate with (d := d); trivial.
    rewrite (Hsq row (nth_error_In _ _ Hi)). exact Hlen.
Qed.

(** In the evaluation rule, a visited state whose diagonal entry is zero
    makes [times[n] / rate] raise. *)
Lemma fun_loop_zero_rate {Label} (self : chain Label) (x : outcome) (t : Q)
    (fuel : nat) (total_time : Q) (n state : nat) (row : list Q) (d : Q) :
  states x n = OK state ->
  nth_error (generator_matrix self) state = Some row ->
  nth_error row state = Some d -> (d == 0)%Q ->
  fun_loop self x t (S fuel) total_time n = Some (Err ZeroDivisionError).
Proof.
  intros Hs Hrow Hd Hz. simpl. rewrite Hs.
  unfold rate_of, getitem. rewrite Hrow. simpl. rewrite Hd. simpl.
  unfold py_div. rewrite (Qeq_bool_opp_zero Hz). reflexivity.
Qed.

(** ** C10 *)

(** C10, as the claim states it for any matrix with an all-zero row,
    fails: the one-state generator [[[0]]] and the ragged generator
    [[[0], [1, -1]]] are accepted, have the all-zero row [[0]], and are
    constructed without any division by zero (a row of one entry has no
    off-diagonal entry to divide). *)
Lemma C10_counterexample :
  check_generator [[0]]%Q = OK tt /\
  In [0]%Q [[0]]%Q /\
  @init unit [[0]]%Q [1]%Q None = OK Examples.absorbing /\
  check_generator [[0]; [1; -1]]%Q = OK tt /\
  In [0]%Q [[0]; [1; -1]]%Q /\
  (exists c, @init unit [[0]; [1; -1]]%Q [1; 0]%Q None = OK c).
Proof.
  split; [vm_compute; reflexivity|]. split; [left; reflexivity|].
  split; [reflexivity|]. split; [vm_compute; reflexivity|].
  split; [left; reflexivity|]. eexists. vm_compute. reflexivity.
Qed.

(** C10 (amended): a generator matrix can pass [check_generator] and
    still not yield a chain.  Whenever an accepted square generator with
    at least two states has a row whose diagonal entry is 0 (an absorbing state:
    by the checks, the whole row is zero), construction raises
    [ZeroDivisionError] while deriving the embedded transition matrix.
    The same zero rate makes the evaluation rule raise
    [ZeroDivisionError] at [times[n] / rate] as soon as it visits such a
    state.  [[[0, 0], [1, -1]]] is such a generator. *)
Theorem C10_accepted_generator_divides_by_zero :
  (forall (Label : Type) (g : matrix) dist (labels : option (list Label))
          i row d,
     check_generator g = OK tt ->
     square g -> (2 <= List.length g)%nat ->
     nth_error g i = Some row -> nth_error row i = Some d -> (d == 0)%Q ->
     init g dist labels = Err ZeroDivisionError) /\
  (forall (Label : Type) (self : chain Label) x t fuel total_time n state
          row d,
     states x n = OK state ->
     nth_error (generator_matrix self) state = Some row ->
     nth_error row state = Some d -> (d == 0)%Q ->
     fun_loop self x t (S fuel) total_time n = Some (Err ZeroDivisionError)) /\
  (exists g : matrix,
     check_generator g = OK tt /\
     In [0; 0]%Q g /\
     @init unit g [1; 0]%Q None = Err ZeroDivisionError).
Proof.
  split; [|split].
  - intros Label g dist labels i row d Hc Hsq Hlen Hi Hd Hz.
    unfold init. rewrite Hc. simpl.
    rewrite derive_transition_matrix_zero_rate with (i := i) (row := row) (d := d);
      trivial.
  - intros Label self x t fuel total_time n state row d.
    apply fun_loop_zero_rate.
  - exists Examples.absorbing2. split; [vm_compute; reflexivity|].
    split; [left; reflexivity | vm_compute; reflexivity].
Qed.

(** C10 at [[[0, 0], [1, -1]]]: accepted, square, two states, row 0 has
    diagonal entry 0; construction raises [ZeroDivisionError]. *)
Lemma C10_witness :
  check_generator Examples.absorbing2 = OK tt /\
  square Examples.absorbing2 /\
  @init unit Examples.absorbing2 [1; 0]%Q None = Err ZeroDivisionError.
Proof.
  assert (Hc : check_generator Examples.absorbing2 = OK tt)
    by (vm_compute; reflexivity).
  assert (Hsq : square Examples.absorbing2).
  { intros row [<- | [<- | []]]; reflexivity. }
  split; [exact Hc|]. split; [exact Hsq|].
  apply (proj1 C10_accepted_generator_divides_by_zero unit
           Examples.absorbing2 [1; 0]%Q None 0%nat [0; 0]%Q 0%Q Hc Hsq).
  - simpl. lia.
  - reflexivity.
  - reflexivity.
  - reflexivity.
Defined.

(* ================================================================== *)
(** * The evaluation rule of the continuous-time chain *)
(* ================================================================== *)

Section EvaluationRule.

Context {Label : Type}.

Variables (self : chain Label) (x : outcome).

(** The index at which the loop stops is not before the one it was
    entered with, and the state it yields is the one at that index. *)
Lemma fun_loop_stop (t : Q) (fuel : nat) :
  forall total_time n k s,
    fun_loop self x t fuel total_time n = Some (OK (k, s)) ->
    (n <= k)%nat /\ states x k = OK s.
Proof.
  induction fuel as [|fuel IH]; simpl; intros total_time n k s H;
    [discriminate|].
  destruct (states x n) as [state|e] eqn:Es; [|discriminate].
  destruct (rate <- rate_of self state ;; py_div (times x n) rate) as [d|e];
    [|discriminate].
  destruct (Qltb t (total_time + d)).
  - inversion H; subst. auto.
  - apply IH in H. destruct H. split; [lia | trivial].
Qed.

(** Two runs, entered alike, for times [t1 <= t2]: the first stops no
    later than the second. *)
Lemma fun_loop_monotone (t1 t2 : Q) :
  (t1 <= t2)%Q ->
  forall fuel2 fuel1 total_time n n1 s1 n2 s2,
    fun_loop self x t1 fuel1 total_time n = Some (OK (n1, s1)) ->
    fun_loop self x t2 fuel2 total_time n = Some (OK (n2, s2)) ->
    (n1 <= n2)%nat.
Proof.
  intros Ht. induction fuel2 as [|fuel2 IH];
    intros [|fuel1] total_time n n1 s1 n2 s2 H1 H2; simpl in *;
    try discriminate.
  destruct (states x n) as [state|e]; [|discriminate].
  destruct (rate <- rate_of self state ;; py_div (times x n) rate) as [d|e];
    [|discriminate].
  destruct (Qltb t1 (total_time + d)) eqn:E1.
  - inversion H1; subst.
    destruct (Qltb t2 (total_time + d)).
    + inversion H2; subst. lia.
    + apply fun_loop_stop in H2. lia.
  - apply Qltb_false in E1.
    assert (E2 : Qltb t2 (total_time + d) = false)
      by (apply Qltb_false; lra).
    rewrite E2 in H2. exact (IH _ _ _ _ _ _ _ H1 H2).
Qed.

(** If the run for [t2] returns, so does the run for every [t1 <= t2],
    within the same fuel, and no later. *)
Lemma fun_loop_earlier (t1 t2 : Q) :
  (t1 <= t2)%Q ->
  forall fuel total_time n n2 s2,
    fun_loop self x t2 fuel total_time n = Some (OK (n2, s2)) ->
    exists n1 s1,
      (n1 <= n2)%nat /\
      fun_loop self x t1 fuel total_time n = Some (OK (n1, s1)).
Proof.
  intros Ht. induction fuel as [|fuel IH]; intros total_time n n2 s2 H2;
    simpl in *; [discriminate|].
  destruct (states x n) as [state|e]; [|discriminate].
  destruct (rate <- rate_of self state ;; py_div (times x n) rate) as [d|e];
    [|discriminate].
  destruct (Qltb t1 (total_time + d)) eqn:E1.
  - exists n, state. split; [|reflexivity].
    destruct (Qltb t2 (total_time + d)).
    + inversion H2; subst. lia.
    + apply fun_loop_stop in H2. lia.
  - apply Qltb_false in E1.
    assert (E2 : Qltb t2 (total_time + d) = false)
      by (apply Qltb_false; lra).
    rewrite E2 in H2. exact (IH _ _ _ _ H2).
Qed.

(** At [t = 0], from a first state with a strictly negative diagonal
    entry and a strictly positive first draw, the loop stops in its first
    pass and the rule reports [states[0]]. *)
Lemma fun_at_zero_positive_rate (fuel : nat) (state : nat) (row : list Q)
    (d : Q) :
  states x 0%nat = OK state ->
  nth_error (generator_matrix self) state = Some row ->
  nth_error row state = Some d -> (d < 0)%Q ->
  (0 < times x 0%nat)%Q ->
  fun_ self x 0 (S fuel) = Some (report (state_labels self) state).
Proof.
  intros Hs Hrow Hd Hneg Hpos. unfold fun_. simpl. rewrite Hs.
  unfold rate_of, getitem. rewrite Hrow. simpl. rewrite Hd. simpl.
  unfold py_div. rewrite Qeq_bool_opp_nonzero by lra.
  assert (Hq : (0 < times x 0%nat / - d)%Q).
  { unfold Qdiv. apply Qmult_lt_0_compat; [exact Hpos|].
    apply Qinv_lt_0_compat. lra. }
  assert (E : Qltb 0 (0 + times x 0%nat / - d) = true)
    by (apply Qltb_true; lra).
  rewrite E. reflexivity.
Qed.

End EvaluationRule.

(** ** C4 *)

(** C4 fails on the code for the accepted generator [[[0]]] (one
    absorbing state): construction succeeds, the first draw is 1, and the
    evaluation rule at [t = 0] raises [ZeroDivisionError] in its first
    pass instead of returning state 0. *)
Theorem C4_absorbing_initial_state_raises_at_zero :
  check_generator [[0]]%Q = OK tt /\
  @init unit [[0]]%Q [1%Q] None = OK Examples.absorbing /\
  states Examples.absorbing_outcome 0%nat = OK 0%nat /\
  (0 < times Examples.absorbing_outcome 0%nat)%Q /\
  forall fuel,
    fun_ Examples.absorbing Examples.absorbing_outcome 0 (S fuel)
    = Some (Err ZeroDivisionError).
Proof.
  repeat split.
Qed.

(** ** C5 *)

(** C5: along one outcome, if the rule returns at [t2], stopping at
    index [n2], then for every [t1 < t2] it returns as well (the same
    fuel suffices), and the index [n1] at which it stops for [t1], in any
    run that returns, satisfies [n1 <= n2]. *)
Theorem C5_stop_index_monotone_in_time :
  forall (Label : Type) (self : chain Label) (x : outcome) (t1 t2 : Q)
         (fuel2 n2 s2 : nat),
    (t1 < t2)%Q ->
    fun_loop self x t2 fuel2 0 0%nat = Some (OK (n2, s2)) ->
    (exists n1 s1,
       (n1 <= n2)%nat /\
       fun_loop self x t1 fuel2 0 0%nat = Some (OK (n1, s1))) /\
    (forall fuel1 n1 s1,
       fun_loop self x t1 fuel1 0 0%nat = Some (OK (n1, s1)) ->
       (n1 <= n2)%nat).
Proof.
  intros Label self x t1 t2 fuel2 n2 s2 Ht H2.
  assert (Hle : (t1 <= t2)%Q) by lra. split.
  - exact (fun_loop_earlier self x Hle _ _ _ H2).
  - intros fuel1 n1 s1 H1.
    exact (fun_loop_monotone self x Hle _ _ _ _ H1 H2).
Qed.

(** C5 on the path of the two-state chain with draws 1, 5, 1, ...: at
    [t2 = 3] the rule stops at index 1, at [t1 = 0] at index 0. *)
Lemma C5_witness :
  fun_loop Examples.flip_flop Examples.flip_flop_outcome 3 2 0 0%nat
    = Some (OK (1%nat, 1%nat)) /\
  fun_loop Examples.flip_flop Examples.flip_flop_outcome 0 2 0 0%nat
    = Some (OK (0%nat, 0%nat)) /\
  (0 <= 1)%nat.
Proof.
  assert (H2 : fun_loop Examples.flip_flop Examples.flip_flop_outcome 3 2 0 0%nat
               = Some (OK (1%nat, 1%nat))) by reflexivity.
  assert (H1 : fun_loop Examples.flip_flop Examples.flip_flop_outcome 0 2 0 0%nat
               = Some (OK (0%nat, 0%nat))) by reflexivity.
  split; [exact H2|]. split; [exact H1|].
  assert (Ht : (0 < 3)%Q) by reflexivity.
  exact (proj2 (@C5_stop_index_monotone_in_time unit
                  Examples.flip_flop Examples.flip_flop_outcome 0 3
                  2%nat 1%nat 1%nat Ht H2)
               2%nat 0%nat 0%nat H1).
Defined.

(* ================================================================== *)
(** * JumpTimes and InterjumpTimes *)
(* ================================================================== *)

(** What the loop of [JumpTimes] computes: every pass adds the same
    holding time, the one at index [n]. *)
Lemma JumpTimes_loop_repeats {Label} (self : chain Label) (x : outcome)
    (n : nat) (d : Q) :
  InterjumpTimes_fun self x n = OK d ->
  forall (k a : nat) (total_time : Q),
    for_fold (seq a k) (JumpTimes_body self x n) total_time
    = OK (Nat.iter k (fun v => v + d)%Q total_time).
Proof.
  intros Hd. unfold InterjumpTimes_fun in Hd.
  induction k as [|k IH]; intros a total_time; [reflexivity|].
  rewrite Nat.iter_succ_r. cbn [seq for_fold]. unfold JumpTimes_body at 1.
  destruct (states x n) as [state|e]; [|discriminate]. cbn [bind] in *.
  destruct (rate_of self state) as [rate|e]; [|discriminate]. cbn [bind] in *.
  rewrite Hd. cbn [bind]. apply IH.
Qed.

Lemma iter_add_Qeq (d : Q) (k : nat) (total_time : Q) :
  (Nat.iter k (fun v => v + d) total_time == total_time + inject_Z (Z.of_nat k) * d)%Q.
Proof.
  induction k as [|k IH].
  - simpl. unfold inject_Z. lra.
  - rewrite Nat2Z.inj_succ. simpl Nat.iter. rewrite IH.
    unfold Z.succ. rewrite inject_Z_plus. unfold inject_Z at 3. lra.
Qed.

(** [JumpTimes] at index [n] is [n] times the holding time at index [n]. *)
Lemma JumpTimes_fun_is_n_times_last {Label} (self : chain Label) (x : outcome)
    (n : nat) (d : Q) :
  InterjumpTimes_fun self x n = OK d ->
  exists v, JumpTimes_fun self x n = OK v /\
            (v == inject_Z (Z.of_nat n) * d)%Q.
Proof.
  intros Hd. unfold JumpTimes_fun, range.
  rewrite (JumpTimes_loop_repeats self x n Hd).
  eexists. split; [reflexivity|]. rewrite iter_add_Qeq. lra.
Qed.

(** ** C1 *)

(** C1 fails on the code.  On the path of the two-state chain
    [[[-1, 1], [1, -1]]] whose unit-rate draws are 1, 5, 1, ... (all
    rates are 1): the loop of [JumpTimes] reads index [n] in every pass,
    so [JumpTimes] is 5 at index 1 and 2 at index 2, while the cumulative
    sums of [InterjumpTimes] are 1 and 6.  The value is not the
    cumulative sum and it decreases from index 1 to index 2. *)
Theorem C1_JumpTimes_reads_index_n :
  InterjumpTimes_fun Examples.flip_flop Examples.flip_flop_outcome 0 = OK (1 / 1)%Q /\
  InterjumpTimes_fun Examples.flip_flop Examples.flip_flop_outcome 1 = OK (5 / 1)%Q /\
  (exists v1 c1 v2 c2,
     JumpTimes_fun Examples.flip_flop Examples.flip_flop_outcome 1 = OK v1 /\
     cumulative_jump_time Examples.flip_flop Examples.flip_flop_outcome 1 = OK c1 /\
     JumpTimes_fun Examples.flip_flop Examples.flip_flop_outcome 2 = OK v2 /\
     cumulative_jump_time Examples.flip_flop Examples.flip_flop_outcome 2 = OK c2 /\
     (v1 == 5 /\ c1 == 1 /\ v2 == 2 /\ c2 == 6 /\ v2 < v1)%Q).
Proof.
  split; [reflexivity|]. split; [reflexivity|].
  do 4 eexists. repeat split.
Qed.

(* ================================================================== *)
(** * RandomProcess.at *)
(* ================================================================== *)

(** The rule [fun(x, t)] of the continuous-time chain has no check of
    its own: given [t = -1] directly, it returns the first state. *)
Lemma fun_at_negative_time_returns :
  fun_ Examples.flip_flop Examples.flip_flop_outcome (-1) 1
  = Some (OK (State 0)).
Proof. reflexivity. Qed.

(** ** C6 *)

(** C6: for every process and every outcome, [at] at a negative time
    yields [DomainError]; the evaluation rule is not consulted, so no
    value is produced.  This holds for the continuous-time chain, for
    [JumpTimes] and [InterjumpTimes] and for the discrete-time chain. *)
Theorem C6_negative_time_is_a_domain_error :
  forall (Outcome Value : Type) (P : process Outcome Value)
         (outcome : Outcome) (time : Q),
    (time < 0)%Q ->
    at_ P outcome time = Some (Err DomainError) /\
    forall rule', at_ {| timeIndex := timeIndex P; rule := rule' |} outcome time
                  = at_ P outcome time.
Proof.
  intros Outcome Value P outcome time Ht. unfold at_.
  apply Qltb_true in Ht. rewrite Ht. simpl. split; reflexivity.
Qed.

(** C6 at [t = -1] on the continuous-time chain [[[-1, 1], [1, -1]]]. *)
Lemma C6_witness :
  (-1 < 0)%Q /\
  at_ (CTMC.as_process Examples.flip_flop 1) Examples.flip_flop_outcome (-1)
  = Some (Err DomainError).
Proof.
  assert (Ht : (-1 < 0)%Q) by reflexivity.
  split; [exact Ht|].
  exact (proj1 (C6_negative_time_is_a_domain_error
                  (CTMC.as_process Examples.flip_flop 1)
                  Examples.flip_flop_outcome Ht)).
Defined.

(* ================================================================== *)
(** * The index rule of the discrete-time chain *)
(* ================================================================== *)

Section IndexRule.

Context {RS : RandomState} {Label : Type}.

Variables (transition_matrix : list (list Q)) (initial_dist : list Q)
          (state_labels : option (list Label)).

(** [x(n)] starts by seeding the global generator, so what it does is
    the same from every state of the generator. *)
Lemma x_ignores_generator_state (seed : Z) (n : nat) (g1 g2 : rng) :
  MarkovChain.x transition_matrix initial_dist state_labels seed n g1
  = MarkovChain.x transition_matrix initial_dist state_labels seed n g2.
Proof.
  unfold MarkovChain.x. unfold bindM at 1 3. unfold Numpy.seed. reflexivity.
Qed.

End IndexRule.

(** ** C7 *)

(** C7: within one draw (one seed), the index rule returns the same
    value for the same index whatever the state of the global generator
    it is called in; hence querying index [n], then any index [m], then
    [n] again gives the first value again. *)
Theorem C7_index_rule_is_replayable :
  forall (RS : RandomState) (Label : Type)
         (transition_matrix : list (list Q)) (initial_dist : list Q)
         (state_labels : option (list Label)) (seed : Z) (n m : nat),
    let x := MarkovChain.x transition_matrix initial_dist state_labels seed in
    (forall g1 g2 : rng, fst (x n g1) = fst (x n g2)) /\
    (forall g : rng,
       let first := x n g in
       let between := x m (snd first) in
       let again := x n (snd between) in
       fst again = fst first).
Proof.
  intros RS Label transition_matrix initial_dist state_labels seed n m x.
  split.
  - intros g1 g2. unfold x.
    rewrite (x_ignores_generator_state _ _ _ seed n g1 g2). reflexivity.
  - intros g first between again. unfold again, first, x.
    rewrite (x_ignores_generator_state _ _ _ seed n (snd between) g).
    reflexivity.
Qed.

(* ================================================================== *)
(** * numpy.random.choice on point masses *)
(* ================================================================== *)

Section Choice.

Context {RS : RandomState}.

Lemma random_sample_range (g : rng) :
  exists u, random_sample g = (OK u, snd (next_double_bits g)) /\
            (0 <= u)%Q /\ (u < 1)%Q.
Proof.
  unfold random_sample. destruct (next_double_bits g) as [k g'].
  eexists. split; [reflexivity|].
  assert (Hm : (N.modulo k (Npos two53) < Npos two53)%N)
    by (apply N.mod_lt; discriminate).
  unfold Qle, Qlt. cbn [Qnum Qden]. rewrite Z.mul_1_r, Z.mul_1_l. split.
  - apply N2Z.is_nonneg.
  - change (Z.pos two53) with (Z.of_N (N.pos two53)).
    apply N2Z.inj_lt. exact Hm.
Qed.

(** Once [p] has passed the checks, [choice] inverts the normalised
    cumulative sums. *)
Lemma choice_checked (m : nat) (p : list Q) :
  (m =? 0)%nat = false ->
  (List.length p =? m)%nat = true ->
  existsb (fun q => Qltb q 0) p = false ->
  Qltb atol (Qabs (py_sum p - 1)) = false ->
  choice m p =
  bindM random_sample
    (fun u => ret (searchsorted_right
                     (map (fun c => (c / last (cumsum p) 0)%Q) (cumsum p)) u)).
Proof.
  intros H1 H2 H3 H4. unfold choice. rewrite H1, H2, H3, H4. reflexivity.
Qed.

Lemma Qle_bool_false (c u : Q) : (u < c)%Q -> Qle_bool c u = false.
Proof.
  intros H. destruct (Qle_bool c u) eqn:E; trivial.
  apply Qle_bool_iff in E. exfalso. lra.
Qed.

Lemma Qle_bool_true (c u : Q) : (c <= u)%Q -> Qle_bool c u = true.
Proof. apply Qle_bool_iff. Qed.

(** With [p = [1, 0]] the draw is 0. *)
Lemma choice_first (g : rng) :
  choice 2 [1; 0]%Q g = (OK 0%nat, snd (next_double_bits g)).
Proof.
  rewrite choice_checked by (vm_compute; reflexivity).
  unfold bindM. destruct (random_sample_range g) as (u & -> & H0 & H1).
  unfold ret. do 2 f_equal.
  unfold searchsorted_right. cbn [cumsum cumsum_from map last filter].
  rewrite !Qle_bool_false; [reflexivity | |];
    (apply Qlt_le_trans with (y := 1%Q); [exact H1 | vm_compute; discriminate]).
Qed.

(** With [p = [0, 1]] the draw is 1. *)
Lemma choice_second (g : rng) :
  choice 2 [0; 1]%Q g = (OK 1%nat, snd (next_double_bits g)).
Proof.
  rewrite choice_checked by (vm_compute; reflexivity).
  unfold bindM. destruct (random_sample_range g) as (u & -> & H0 & H1).
  unfold ret. do 2 f_equal.
  unfold searchsorted_right. cbn [cumsum cumsum_from map last filter].
  rewrite Qle_bool_true.
  - rewrite Qle_bool_false; [reflexivity|].
    apply Qlt_le_trans with (y := 1%Q); [exact H1 | vm_compute; discriminate].
  - apply Qle_trans with (y := 0%Q); [vm_compute; discriminate | exact H0].
Qed.

(** On [[[0, 1], [1, 0]]] every step of the walk flips the state. *)
Lemma walk_alternates (k : nat) :
  forall (state : nat) (g : rng),
    (state < 2)%nat ->
    fst (@MarkovChain.walk RS [[0; 1]; [1; 0]]%Q [1; 0]%Q k state g)
    = OK ((state + k) mod 2)%nat.
Proof.
  induction k as [|k IH]; intros state g Hs.
  - cbn [MarkovChain.walk]. unfold ret. cbn [fst]. rewrite Nat.add_0_r.
    rewrite Nat.mod_small by exact Hs. reflexivity.
  - cbn [MarkovChain.walk]. unfold bindM at 1. unfold lift.
    destruct state as [|[|state]]; [| |lia]; cbn [getitem nth_error];
      unfold bindM at 1; unfold MarkovChain.m; cbn [List.length].
    + rewrite choice_second. rewrite IH by lia. reflexivity.
    + rewrite choice_first. rewrite IH by lia. f_equal.
      replace (1 + S k)%nat with (0 + k + 1 * 2)%nat by lia.
      rewrite Nat.Div0.mod_add. reflexivity.
Qed.

End Choice.

(** ** C8 *)

(** C8: for [MarkovChain(transition_matrix=[[0,1],[1,0]],
    initial_dist=[1,0])], whatever the seed of the draw and whatever the
    random bits, the value at index [n] is the state [n mod 2]: the path
    starts at 0 and alternates. *)
Theorem C8_flip_flop_path_alternates :
  forall (RS : RandomState) (seed : Z) (n : nat) (g : rng),
    fst (@MarkovChain.x RS unit [[0; 1]; [1; 0]]%Q [1; 0]%Q None seed n g)
    = OK (State (n mod 2)).
Proof.
  intros RS seed n g. unfold MarkovChain.x.
  unfold bindM at 1. unfold Numpy.seed.
  unfold bindM at 1. unfold MarkovChain.m. cbn [List.length].
  rewrite choice_first.
  unfold bindM.
  pose proof (@walk_alternates RS n 0%nat
                (snd (next_double_bits (seed_state seed))) Nat.lt_0_2) as Hw.
  destruct (MarkovChain.walk _ _ n 0%nat _) as [[s|e] g'];
    cbn [fst] in Hw; [|discriminate].
  inversion Hw; subst. reflexivity.
Qed.

(** The chain run on the linear congruential generator: a few values. *)
Example x_on_LCG :
  map (fun n => fst (@MarkovChain.x LCG unit [[0; 1]; [1; 0]]%Q [1; 0]%Q None
                       7%Z n 0%Z))
      [0; 1; 2; 3]%nat
  = [OK (State 0); OK (State 1); OK (State 0); OK (State 1)].
Proof. vm_compute. reflexivity. Qed.

(** Rows that are no probability vector make [choice] raise. *)
Example x_on_bad_initial_dist :
  fst (@MarkovChain.x LCG unit [[0; 1]; [1; 0]]%Q [1; 1]%Q None 7%Z 0 0%Z)
  = Err (ValueError "probabilities do not sum to 1").
Proof. vm_compute. reflexivity. Qed.

(* ================================================================== *)
(** * Bernoulli *)
(* ================================================================== *)

Lemma Bernoulli_init_outside (p0 : Q) :
  ~ (0 <= p0 /\ p0 <= 1)%Q -> Bernoulli.init p0 = OK {| Bernoulli.p := None |}.
Proof.
  intros H. unfold Bernoulli.init.
  destruct (Qle_bool 0 p0) eqn:E0; [|reflexivity].
  destruct (Qle_bool p0 1) eqn:E1; [|reflexivity].
  exfalso. apply H. split; apply Qle_bool_iff; assumption.
Qed.

(** ** C9 *)

(** C9: for [p] outside [[0, 1]], [Bernoulli(p)] raises nothing: it
    returns an object whose attribute [p] was never assigned.  A later
    [draw()] on that object raises [AttributeError] for [p], from every
    state of the generator and leaving it as it was; in particular
    construction did not raise [InvalidParameterError]. *)
Theorem C9_Bernoulli_accepts_invalid_probability :
  forall (RS : RandomState) (p0 : Q),
    ~ (0 <= p0 /\ p0 <= 1)%Q ->
    exists b : Bernoulli.t,
      Bernoulli.init p0 = OK b /\
      Bernoulli.p b = None /\
      Bernoulli.init p0 <> Err InvalidParameterError /\
      forall g : rng, Bernoulli.draw b g = (Err (AttributeError "p"), g).
Proof.
  intros RS p0 H. exists {| Bernoulli.p := None |}.
  rewrite (Bernoulli_init_outside H).
  split; [reflexivity|]. split; [reflexivity|]. split; [discriminate|].
  intros g. reflexivity.
Qed.

(** C9 at [p = 2], on the linear congruential generator. *)
Lemma C9_witness :
  ~ (0 <= 2 /\ 2 <= 1)%Q /\
  exists b : Bernoulli.t,
    Bernoulli.init 2 = OK b /\
    @Bernoulli.draw LCG b 0%Z = (Err (AttributeError "p"), 0%Z).
Proof.
  assert (H : ~ (0 <= 2 /\ 2 <= 1)%Q).
  { intros [_ H]. apply (Qlt_not_le 1 2); [reflexivity | exact H]. }
  split; [exact H|].
  destruct (C9_Bernoulli_accepts_invalid_probability LCG H)
    as (b & Hb & _ & _ & Hd).
  exists b. split; [exact Hb | exact (Hd 0%Z)].
Defined.

(** Inside [[0, 1]] the attribute is set and [draw] does not raise. *)
Example Bernoulli_valid :
  Bernoulli.init (1 # 2) = OK {| Bernoulli.p := Some (1 # 2) |} /\
  fst (@Bernoulli.draw LCG {| Bernoulli.p := Some (1 # 2) |} 3%Z) = OK 0%nat.
Proof. split; vm_compute; reflexivity. Qed.

(* ================================================================== *)
(** * numpy.random.choice: the index it returns *)
(* ================================================================== *)

Unset Implicit Arguments.

Lemma fold_left_Qplus_acc (l : list Q) (acc : Q) :
  (fold_left Qplus l acc == acc + py_sum l)%Q.
Proof.
  unfold py_sum. revert acc. induction l as [|a l IH]; intros acc; simpl.
  - lra.
  - rewrite (IH (acc + a)%Q), (IH (0 + a)%Q). lra.
Qed.

Lemma last_cumsum_from (p : list Q) (acc d : Q) :
  p <> [] -> last (cumsum_from acc p) d = fold_left Qplus p acc.
Proof.
  revert acc. induction p as [|q p IH]; intros acc Hp; [congruence|].
  destruct p as [|q' p]; [reflexivity|].
  cbn [cumsum_from fold_left] in *.
  rewrite <- (IH (acc + q)%Q) by discriminate. reflexivity.
Qed.

Section Inversion.

(** Inverting scaled cumulative sums at [u]; [k] is the scale, positive. *)
Variables (k u : Q).

Hypothesis k_pos : (0 < k)%Q.

Lemma scaled_cumsum_above (p : list Q) :
  (forall q, In q p -> 0 <= q)%Q ->
  forall c, (u < c * k)%Q ->
    filter (fun y => Qle_bool y u) (map (fun y => y * k)%Q (cumsum_from c p)) = [].
Proof.
  induction p as [|q p IH]; intros Hp c Hc; [reflexivity|].
  cbn [cumsum_from map filter].
  assert (Hq : (0 <= q)%Q) by (apply Hp; left; reflexivity).
  assert (Hc' : (u < (c + q) * k)%Q) by nra.
  rewrite Qle_bool_false by exact Hc'.
  apply IH; [|exact Hc']. intros q' Hq'. apply Hp. right. exact Hq'.
Qed.

Lemma searchsorted_right_supported (p : list Q) :
  (forall q, In q p -> 0 <= q)%Q ->
  forall acc,
    (acc * k <= u)%Q -> (u < fold_left Qplus p acc * k)%Q ->
    exists i q,
      searchsorted_right (map (fun y => y * k)%Q (cumsum_from acc p)) u = i /\
      nth_error p i = Some q /\ (0 < q)%Q.
Proof.
  induction p as [|q p IH]; intros Hp acc Hlo Hhi.
  - simpl in Hhi. exfalso. lra.
  - unfold searchsorted_right. cbn [cumsum_from map filter].
    destruct (Qle_bool ((acc + q) * k) u) eqn:E.
    + apply Qle_bool_iff in E.
      destruct (IH (fun q' Hq' => Hp q' (or_intror Hq')) (acc + q)%Q E Hhi)
        as (i & q' & Hi & Hn & Hq').
      exists (S i), q'. split; [|auto].
      cbn [List.length]. f_equal. exact Hi.
    + assert (Hc : (u < (acc + q) * k)%Q).
      { apply Qnot_le_lt. intros Hle. apply Qle_bool_iff in Hle. congruence. }
      rewrite scaled_cumsum_above;
        [|intros q' Hq'; apply Hp; right; exact Hq' | exact Hc].
      exists 0%nat, q. split; [reflexivity|]. split; [reflexivity|]. nra.
Qed.

End Inversion.

Section ChoiceSupport.

Context {RS : RandomState}.

Lemma existsb_negative_false (p : list Q) :
  existsb (fun q => Qltb q 0) p = false <-> (forall q, In q p -> 0 <= q)%Q.
Proof.
  induction p as [|a p IH]; simpl.
  - split; [intros _ q [] | reflexivity].
  - rewrite orb_false_iff, IH, Qltb_false. split.
    + intros [Ha Hp] q [<- | Hq]; auto.
    + intros H. split; [apply H; left; reflexivity|].
      intros q Hq. apply H. right. exact Hq.
Qed.

(** What a [choice] that returns has checked. *)
Lemma choice_OK_checked (m : nat) (p : list Q) (g g' : rng) (i : nat) :
  choice m p g = (OK i, g') ->
  (m =? 0)%nat = false /\ (List.length p =? m)%nat = true /\
  existsb (fun q => Qltb q 0) p = false /\
  Qltb atol (Qabs (py_sum p - 1)) = false.
Proof.
  unfold choice.
  destruct (m =? 0)%nat; [discriminate|].
  destruct (List.length p =? m)%nat; [|discriminate].
  destruct (existsb (fun q => Qltb q 0) p); [discriminate|].
  destruct (Qltb atol (Qabs (py_sum p - 1))); [discriminate|].
  auto.
Qed.

Lemma atol_small : (atol < 1)%Q.
Proof. reflexivity. Qed.

(** A [p] that passes the checks has a positive sum. *)
Lemma checked_sum_positive (p : list Q) :
  Qltb atol (Qabs (py_sum p - 1)) = false -> (0 < py_sum p)%Q.
Proof.
  intros H. apply Qltb_false in H. apply Qabs_Qle_condition in H.
  pose proof atol_small. lra.
Qed.

(** Past the checks, [choice] returns an index of [p] whose entry is
    positive, and advances the generator by one sample. *)
Lemma choice_checked_supported (m : nat) (p : list Q) (g : rng) :
  (m =? 0)%nat = false -> (List.length p =? m)%nat = true ->
  existsb (fun q => Qltb q 0) p = false ->
  Qltb atol (Qabs (py_sum p - 1)) = false ->
  exists i q,
    choice m p g = (OK i, snd (next_double_bits g)) /\
    nth_error p i = Some q /\ (0 < q)%Q.
Proof.
  intros H1 H2 H3 H4. rewrite choice_checked by assumption.
  unfold bindM. destruct (random_sample_range g) as (u & -> & Hu0 & Hu1).
  unfold ret.
  assert (Hne : p <> []).
  { apply Nat.eqb_eq in H2. apply Nat.eqb_neq in H1.
    intros ->. simpl in H2. congruence. }
  assert (Hs : (0 < py_sum p)%Q) by (apply checked_sum_positive; exact H4).
  unfold cumsum. rewrite last_cumsum_from by exact Hne.
  fold (py_sum p). unfold Qdiv.
  assert (Hk : (0 < / py_sum p)%Q) by (apply Qinv_lt_0_compat; exact Hs).
  assert (Hone : (py_sum p * / py_sum p == 1)%Q)
    by (apply Qmult_inv_r; lra).
  assert (Hp : (forall q, In q p -> 0 <= q)%Q)
    by (apply existsb_negative_false; exact H3).
  destruct (@searchsorted_right_supported (/ py_sum p) u Hk p Hp 0%Q)
    as (i & q & Hi & Hn & Hq).
  - lra.
  - fold (py_sum p). rewrite Hone. exact Hu1.
  - exists i, q. rewrite Hi. auto.
Qed.

End ChoiceSupport.

Section ChoiceResults.

Context {RS : RandomState}.

(** A [choice] that returns gives an index below [m] whose entry of [p]
    is positive. *)
Lemma choice_OK_supported (m : nat) (p : list Q) (g g' : rng) (i : nat) :
  choice m p g = (OK i, g') ->
  (i < m)%nat /\ exists q, nth_error p i = Some q /\ (0 < q)%Q.
Proof.
  intros H. destruct (choice_OK_checked m p g g' i H) as (H1 & H2 & H3 & H4).
  destruct (choice_checked_supported m p g H1 H2 H3 H4)
    as (j & q & Hc & Hn & Hq).
  rewrite Hc in H. inversion H; subst. split; [|eauto].
  apply Nat.eqb_eq in H2. rewrite <- H2.
  apply nth_error_Some. congruence.
Qed.

(** A [choice] that raises raises [ValueError] and leaves the generator
    as it was. *)
Lemma choice_Err_ValueError (m : nat) (p : list Q) (g g' : rng) (e : exn) :
  choice m p g = (Err e, g') -> g' = g /\ exists msg, e = ValueError msg.
Proof.
  unfold choice, raise.
  destruct (m =? 0)%nat; [intros H; inversion H; eauto|].
  destruct (negb (List.length p =? m)%nat); [intros H; inversion H; eauto|].
  destruct (existsb (fun q => Qltb q 0) p); [intros H; inversion H; eauto|].
  destruct (Qltb atol (Qabs (py_sum p - 1))); [intros H; inversion H; eauto|].
  unfold bindM, random_sample, ret.
  destruct (next_double_bits g). discriminate.
Qed.

End ChoiceResults.

(* ================================================================== *)
(** * The path of the discrete-time chain *)
(* ================================================================== *)

Section Path.

Context {RS : RandomState} {Label : Type}.

Variables (transition_matrix : list (list Q)) (initial_dist : list Q).

Local Notation "'walk'" := (MarkovChain.walk transition_matrix initial_dist).
Local Notation "'m'" := (MarkovChain.m initial_dist).

Lemma walk_S (n state : nat) (g : rng) :
  walk (S n) state g =
  match getitem transition_matrix state with
  | OK p =>
      match choice m p g with
      | (OK state', g') => walk n state' g'
      | (Err e, g') => (Err e, g')
      end
  | Err e => (Err e, g)
  end.
Proof. reflexivity. Qed.

Lemma x_unfold (state_labels : option (list Label)) (seed : Z) (n : nat)
    (g : rng) :
  MarkovChain.x transition_matrix initial_dist state_labels seed n g =
  match choice m initial_dist (seed_state seed) with
  | (OK state0, g1) =>
      match walk n state0 g1 with
      | (OK state, g2) => (report state_labels state, g2)
      | (Err e, g2) => (Err e, g2)
      end
  | (Err e, g1) => (Err e, g1)
  end.
Proof. reflexivity. Qed.

(** A walk of [n + 1] steps is a walk of [n] steps followed by one
    transition out of the state reached. *)
Lemma walk_last_step (n : nat) :
  forall (state : nat) (g : rng),
    walk (S n) state g =
    match walk n state g with
    | (OK s1, g1) =>
        match getitem transition_matrix s1 with
        | OK p => choice m p g1
        | Err e => (Err e, g1)
        end
    | (Err e, g1) => (Err e, g1)
    end.
Proof.
  induction n as [|n IH]; intros state g.
  - rewrite walk_S. cbn [MarkovChain.walk]. unfold ret.
    destruct (getitem transition_matrix state) as [p|e]; [|reflexivity].
    destruct (choice m p g) as [[s'|e] g']; reflexivity.
  - rewrite walk_S. rewrite (walk_S n state g).
    destruct (getitem transition_matrix state) as [p|e]; [|reflexivity].
    destruct (choice m p g) as [[s'|e] g']; [|reflexivity].
    apply IH.
Qed.

(** The walk raises nothing but [IndexError] and [ValueError]. *)
Lemma walk_Err (n : nat) :
  forall (state : nat) (g g' : rng) (e : exn),
    walk n state g = (Err e, g') ->
    e = IndexError \/ exists msg, e = ValueError msg.
Proof.
  induction n as [|n IH]; intros state g g' e H.
  - discriminate.
  - rewrite walk_S in H. unfold getitem in H.
    destruct (nth_error transition_matrix state) as [p|].
    + destruct (choice m p g) as [[s'|e'] g1] eqn:Ec.
      * exact (IH _ _ _ _ H).
      * inversion H; subst. right.
        apply choice_Err_ValueError in Ec. exact (proj2 Ec).
    + inversion H. auto.
Qed.

End Path.

Section PathFacts.

Context {RS : RandomState}.

Variables (transition_matrix : list (list Q)) (initial_dist : list Q).

Local Notation "'walk'" := (MarkovChain.walk transition_matrix initial_dist).
Local Notation "'m'" := (MarkovChain.m initial_dist).

(** From a state in [range(m)] the walk stays in [range(m)]. *)
Lemma walk_in_range (n : nat) (state : nat) (g g' : rng) (s : nat) :
  (state < m)%nat -> walk n state g = (OK s, g') -> (s < m)%nat.
Proof.
  destruct n as [|n]; intros Hs H.
  - inversion H; subst. exact Hs.
  - rewrite walk_last_step in H.
    destruct (walk n state g) as [[s1|e] g1]; [|discriminate].
    destruct (getitem transition_matrix s1) as [p|e]; [|discriminate].
    apply choice_OK_supported in H. exact (proj1 H).
Qed.

End PathFacts.

(** ** The initial state *)

(** X1.  At index 0 the chain reports a state of [range(m)] to which
    [initial_dist] gives positive probability, and the transition matrix
    is not consulted: any other matrix gives the same state. *)
Theorem MarkovChain_initial_state_supported :
  forall (RS : RandomState) (Label : Type) (transition_matrix : list (list Q))
         (initial_dist : list Q) (seed : Z) (g : rng) (s : nat),
    fst (@MarkovChain.x RS Label transition_matrix initial_dist None seed 0 g)
      = OK (State s) ->
    (s < List.length initial_dist)%nat /\
    (exists q, nth_error initial_dist s = Some q /\ (0 < q)%Q) /\
    (forall transition_matrix',
       fst (@MarkovChain.x RS Label transition_matrix' initial_dist None seed 0 g)
       = OK (State s)).
Proof.
  intros RS Label tm dist seed g s H. rewrite x_unfold in H.
  destruct (choice (MarkovChain.m dist) dist (seed_state seed))
    as [[s0|e] g1] eqn:Ec; [|discriminate].
  cbn in H. inversion H; subst.
  destruct (choice_OK_supported _ _ _ _ _ Ec) as [Hlt Hq].
  split; [exact Hlt|]. split; [exact Hq|].
  intros tm'. rewrite x_unfold, Ec. reflexivity.
Qed.

Lemma MarkovChain_initial_state_supported_witness :
  fst (@MarkovChain.x LCG unit [] [1 # 4; 3 # 4]%Q None 7%Z 0 0%Z)
    = OK (State 1) /\
  exists q, nth_error [1 # 4; 3 # 4]%Q 1 = Some q /\ (0 < q)%Q.
Proof.
  assert (H : fst (@MarkovChain.x LCG unit [] [1 # 4; 3 # 4]%Q None 7%Z 0 0%Z)
              = OK (State 1)) by (vm_compute; reflexivity).
  split; [exact H|].
  exact (proj1 (proj2 (@MarkovChain_initial_state_supported LCG unit []
                         [1 # 4; 3 # 4]%Q 7%Z 0%Z 1%nat H))).
Defined.

(** ** One step of the path *)

(** X2.  Within one draw, if the chain reports state [s'] at index
    [n + 1], then at index [n] it reports a state [s] such that the entry
    [transition_matrix[s][s']] is positive; and [s'] is in [range(m)].
    So the values at successive indices form one path that only uses
    transitions of positive probability. *)
Theorem MarkovChain_step_supported :
  forall (RS : RandomState) (Label : Type) (transition_matrix : list (list Q))
         (initial_dist : list Q) (seed : Z) (n : nat) (g : rng) (s' : nat),
    fst (@MarkovChain.x RS Label transition_matrix initial_dist None seed (S n) g)
      = OK (State s') ->
    exists s p q,
      fst (@MarkovChain.x RS Label transition_matrix initial_dist None seed n g)
        = OK (State s) /\
      nth_error transition_matrix s = Some p /\
      nth_error p s' = Some q /\ (0 < q)%Q /\
      (s' < List.length initial_dist)%nat.
Proof.
  intros RS Label tm dist seed n g s' H. rewrite x_unfold in H.
  rewrite x_unfold.
  destruct (choice (MarkovChain.m dist) dist (seed_state seed))
    as [[s0|e] g1]; [|discriminate].
  rewrite walk_last_step in H.
  destruct (MarkovChain.walk tm dist n s0 g1) as [[s|e] g2]; [|discriminate].
  unfold getitem in H.
  destruct (nth_error tm s) as [p|] eqn:Ep; [|discriminate].
  destruct (choice (MarkovChain.m dist) p g2) as [[s1|e] g3] eqn:Ec;
    [|discriminate].
  cbn in H. inversion H; subst.
  destruct (choice_OK_supported _ _ _ _ _ Ec) as [Hlt (q & Hq & Hpos)].
  exists s, p, q. cbn. auto.
Qed.

Lemma MarkovChain_step_supported_witness :
  fst (@MarkovChain.x LCG unit [[0; 1]; [1; 0]]%Q [1; 0]%Q None 7%Z 1 0%Z)
    = OK (State 1) /\
  fst (@MarkovChain.x LCG unit [[0; 1]; [1; 0]]%Q [1; 0]%Q None 7%Z 0 0%Z)
    = OK (State 0).
Proof.
  assert (H : fst (@MarkovChain.x LCG unit [[0; 1]; [1; 0]]%Q [1; 0]%Q None
                     7%Z 1 0%Z) = OK (State 1)) by (vm_compute; reflexivity).
  split; [exact H|].
  destruct (@MarkovChain_step_supported LCG unit [[0; 1]; [1; 0]]%Q [1; 0]%Q
              7%Z 0%nat 0%Z 1%nat H) as (s & p & q & Hs & _).
  rewrite Hs. vm_compute in Hs. symmetry. exact Hs.
Defined.

(** ** Exceptions of the index rule *)

(** X3.  The index rule raises nothing but [ValueError] (from
    [np.random.choice], when [initial_dist] or a visited row is not a
    probability vector of length [m]) and [IndexError] (a visited state
    has no row, or no label). *)
Theorem MarkovChain_raises_only_ValueError_IndexError :
  forall (RS : RandomState) (Label : Type) (transition_matrix : list (list Q))
         (initial_dist : list Q) (state_labels : option (list Label))
         (seed : Z) (n : nat) (g : rng) (e : exn),
    fst (MarkovChain.x transition_matrix initial_dist state_labels seed n g)
      = Err e ->
    e = IndexError \/ exists msg, e = ValueError msg.
Proof.
  intros RS Label tm dist labels seed n g e H. rewrite x_unfold in H.
  destruct (choice (MarkovChain.m dist) dist (seed_state seed))
    as [[s0|e0] g1] eqn:Ec.
  - destruct (MarkovChain.walk tm dist n s0 g1) as [[s|e1] g2] eqn:Ew.
    + cbn in H. unfold report, getitem in H.
      destruct labels as [labels|]; [|discriminate].
      destruct (nth_error labels s); [discriminate|].
      inversion H. auto.
    + cbn in H. inversion H; subst. eapply walk_Err. exact Ew.
  - cbn in H. inversion H; subst. right.
    apply choice_Err_ValueError in Ec. exact (proj2 Ec).
Qed.

Lemma MarkovChain_raises_only_ValueError_IndexError_witness :
  fst (@MarkovChain.x LCG unit [] [1]%Q None 7%Z 1 0%Z) = Err IndexError /\
  (IndexError = IndexError \/ exists msg, IndexError = ValueError msg).
Proof.
  assert (H : fst (@MarkovChain.x LCG unit [] [1]%Q None 7%Z 1 0%Z)
              = Err IndexError) by (vm_compute; reflexivity).
  split; [exact H|].
  exact (@MarkovChain_raises_only_ValueError_IndexError LCG unit [] [1]%Q None
           7%Z 1%nat 0%Z IndexError H).
Defined.

(** ** Labels *)

(** X4.  When every state of [range(m)] has a label, labelling does not
    change the path: the labelled chain reports the label of the state
    the unlabelled chain reports, and raises exactly what the unlabelled
    chain raises. *)
Theorem MarkovChain_labels_follow_the_path :
  forall (RS : RandomState) (Label : Type) (transition_matrix : list (list Q))
         (initial_dist : list Q) (labels : list Label)
         (seed : Z) (n : nat) (g : rng),
    (List.length initial_dist <= List.length labels)%nat ->
    (forall s,
       fst (MarkovChain.x transition_matrix initial_dist (@None (list Label))
              seed n g) = OK (State s) ->
       exists l,
         nth_error labels s = Some l /\
         fst (MarkovChain.x transition_matrix initial_dist (Some labels)
                seed n g) = OK (Labelled l)) /\
    (forall e,
       fst (MarkovChain.x transition_matrix initial_dist (@None (list Label))
              seed n g) = Err e <->
       fst (MarkovChain.x transition_matrix initial_dist (Some labels)
              seed n g) = Err e).
Proof.
  intros RS Label tm dist labels seed n g Hlen. rewrite !x_unfold.
  destruct (choice (MarkovChain.m dist) dist (seed_state seed))
    as [[s0|e0] g1] eqn:Ec.
  - destruct (MarkovChain.walk tm dist n s0 g1) as [[s|e1] g2] eqn:Ew.
    + assert (Hs : (s < List.length labels)%nat).
      { apply Nat.lt_le_trans with (m := MarkovChain.m dist); [|exact Hlen].
        apply walk_in_range with (2 := Ew).
        apply choice_OK_supported in Ec. exact (proj1 Ec). }
      cbn. unfold getitem.
      destruct (nth_error labels s) as [l|] eqn:El;
        [|apply nth_error_None in El; lia].
      cbn. split.
      * intros s1 H. inversion H; subst. exists l. auto.
      * intros e. split; discriminate.
    + cbn. split; [discriminate|]. intros e. reflexivity.
  - cbn. split; [discriminate|]. intros e. reflexivity.
Qed.

Lemma MarkovChain_labels_follow_the_path_witness :
  (List.length [1; 0]%Q <= List.length [true; false])%nat /\
  fst (@MarkovChain.x LCG bool [[0; 1]; [1; 0]]%Q [1; 0]%Q (Some [true; false])
         7%Z 3 0%Z) = OK (Labelled false).
Proof.
  assert (Hlen : (List.length [1; 0]%Q <= List.length [true; false])%nat)
    by (simpl; lia).
  split; [exact Hlen|].
  destruct (proj1 (@MarkovChain_labels_follow_the_path LCG bool
                     [[0; 1]; [1; 0]]%Q [1; 0]%Q [true; false] 7%Z 3%nat 0%Z
                     Hlen) 1%nat) as (l & Hl & Hx).
  - vm_compute. reflexivity.
  - rewrite Hx. simpl in Hl. inversion Hl. reflexivity.
Defined.

(* ================================================================== *)
(** * The embedded chain is a chain *)
(* ================================================================== *)

Lemma py_sum_cons (a : Q) (l : list Q) : (py_sum (a :: l) == a + py_sum l)%Q.
Proof.
  unfold py_sum at 1. cbn [fold_left]. rewrite fold_left_Qplus_acc. lra.
Qed.

Lemma py_sum_app (l1 l2 : list Q) :
  (py_sum (l1 ++ l2) == py_sum l1 + py_sum l2)%Q.
Proof.
  unfold py_sum at 1. rewrite fold_left_app.
  rewrite fold_left_Qplus_acc. reflexivity.
Qed.

Lemma py_sum_map_div (c : Q) (l : list Q) :
  (py_sum (map (fun q => q / c) l) == py_sum l / c)%Q.
Proof.
  induction l as [|a l IH]; cbn [map].
  - unfold py_sum, Qdiv. simpl. ring.
  - rewrite !py_sum_cons, IH. unfold Qdiv. ring.
Qed.

Lemma enumerate_from_app {A} (l1 l2 : list A) (k : nat) :
  enumerate_from k (l1 ++ l2)
  = enumerate_from k l1 ++ enumerate_from (k + List.length l1) l2.
Proof.
  revert k. induction l1 as [|a l1 IH]; intros k; cbn [app enumerate_from List.length].
  - rewrite Nat.add_0_r. reflexivity.
  - rewrite IH. do 3 f_equal. lia.
Qed.

(** Away from column [i], a row of the embedded chain is the generator's
    row divided by the rate. *)
Lemma map_embedded_entry_off (i : nat) (d : Q) (l : list Q) (k : nat) :
  (i < k \/ k + List.length l <= i)%nat ->
  map (embedded_entry i d) (enumerate_from k l) = map (fun q => q / - d)%Q l.
Proof.
  revert k. induction l as [|a l IH]; intros k Hk; [reflexivity|].
  cbn [enumerate_from map embedded_entry List.length] in *.
  assert (E : (k =? i)%nat = false) by (apply Nat.eqb_neq; lia).
  rewrite E. f_equal. apply IH. lia.
Qed.

Lemma py_sum_embedded_row (i : nat) (row : list Q) (d : Q) :
  nth_error row i = Some d ->
  (py_sum (map (embedded_entry i d) (enumerate row))
   == (py_sum row - d) / - d)%Q.
Proof.
  intros Hd. destruct (nth_error_split _ _ Hd) as (l1 & l2 & -> & Hlen).
  unfold enumerate. rewrite enumerate_from_app. cbn [enumerate_from].
  rewrite map_app. cbn [map embedded_entry].
  replace (0 + List.length l1 =? i)%nat with true
    by (symmetry; apply Nat.eqb_eq; lia).
  rewrite !map_embedded_entry_off by lia.
  rewrite !py_sum_app, !py_sum_cons, !py_sum_map_div.
  unfold Qdiv. ring.
Qed.

(** The rows of a derived matrix, read back. *)
Lemma derived_row (g P : matrix) (i : nat) (prow : list Q) :
  (forall i row, nth_error g i = Some row ->
     exists d, nth_error row i = Some d /\ (d < 0)%Q) ->
  derive_transition_matrix g = OK P ->
  nth_error P i = Some prow ->
  exists row d,
    nth_error g i = Some row /\ nth_error row i = Some d /\ (d < 0)%Q /\
    prow = map (embedded_entry i d) (enumerate row).
Proof.
  intros Hdiag HP Hi. rewrite (derive_transition_matrix_OK g Hdiag) in HP.
  inversion HP; subst. rewrite nth_error_map_enumerate in Hi.
  destruct (nth_error g i) as [row|] eqn:Er; [|discriminate].
  cbn in Hi. inversion Hi; subst.
  destruct (Hdiag i row Er) as (d & Hd & Hneg).
  exists row, d. rewrite (nth_error_nth _ _ _ Hd). auto.
Qed.

Lemma derived_row_is_probability_vector (g P : matrix) :
  check_generator g = OK tt ->
  (forall i row, nth_error g i = Some row ->
     exists d, nth_error row i = Some d /\ (d < 0)%Q) ->
  derive_transition_matrix g = OK P ->
  forall i prow,
    nth_error P i = Some prow ->
    (forall q, In q prow -> 0 <= q)%Q /\ (py_sum prow == 1)%Q.
Proof.
  intros Hc Hdiag HP i prow Hi.
  destruct (derived_row g P i prow Hdiag HP Hi) as (row & d & Hr & Hd & Hneg & ->).
  apply check_generator_OK in Hc. destruct (Hc i row Hr) as [Hsum Hent].
  assert (Hk : (0 < / - d)%Q) by (apply Qinv_lt_0_compat; lra).
  split.
  - intros q Hq. apply in_map_iff in Hq. destruct Hq as ([j p] & <- & Hin).
    apply In_enumerate in Hin. specialize (Hent j p Hin).
    unfold embedded_entry. destruct (j =? i)%nat; [lra|].
    unfold Qdiv. nra.
  - rewrite (py_sum_embedded_row i row d Hd). rewrite Hsum. field. lra.
Qed.

Section EmbeddedChain.

Context {RS : RandomState}.

(** A probability vector of length [m] passes the checks of [choice]. *)
Lemma choice_on_probability_vector (m : nat) (p : list Q) (g : rng) :
  List.length p = m ->
  (forall q, In q p -> 0 <= q)%Q -> (Qabs (py_sum p - 1) <= atol)%Q ->
  exists i, choice m p g = (OK i, snd (next_double_bits g)) /\ (i < m)%nat.
Proof.
  intros Hlen Hp Hs.
  assert (H4 : Qltb atol (Qabs (py_sum p - 1)) = false)
    by (apply Qltb_false; exact Hs).
  assert (H1 : (m =? 0)%nat = false).
  { apply Nat.eqb_neq. intros ->. destruct p; [|discriminate].
    apply checked_sum_positive in H4. vm_compute in H4. discriminate. }
  assert (H2 : (List.length p =? m)%nat = true) by (apply Nat.eqb_eq; exact Hlen).
  assert (H3 : existsb (fun q => Qltb q 0) p = false)
    by (apply existsb_negative_false; exact Hp).
  destruct (choice_checked_supported m p g H1 H2 H3 H4) as (i & q & Hc & Hn & _).
  exists i. split; [exact Hc|]. rewrite <- Hlen.
  apply nth_error_Some. congruence.
Qed.

Lemma sum_one_within_atol (p : list Q) :
  (py_sum p == 1)%Q -> (Qabs (py_sum p - 1) <= atol)%Q.
Proof.
  intros H. rewrite H. vm_compute. discriminate.
Qed.

Variables (g P : matrix) (initial_dist : list Q).

Hypothesis accepted : check_generator g = OK tt.
Hypothesis is_square : square g.
Hypothesis same_size : List.length g = List.length initial_dist.
Hypothesis negative_diagonal :
  forall i row, nth_error g i = Some row ->
    exists d, nth_error row i = Some d /\ (d < 0)%Q.
Hypothesis derived : derive_transition_matrix g = OK P.

(** On the derived matrix the walk cannot raise. *)
Lemma embedded_walk_returns (n : nat) :
  forall (state : nat) (gs : rng),
    (state < List.length initial_dist)%nat ->
    exists s gs',
      MarkovChain.walk P initial_dist n state gs = (OK s, gs') /\
      (s < List.length initial_dist)%nat.
Proof.
  induction n as [|n IH]; intros state gs Hs.
  - exists state, gs. split; [reflexivity | exact Hs].
  - rewrite walk_S. unfold getitem.
    destruct (nth_error P state) as [prow|] eqn:Ep.
    + destruct (derived_row g P state prow negative_diagonal derived Ep)
        as (row & d & Hr & Hd & Hneg & Hprow).
      destruct (derived_row_is_probability_vector g P accepted
                  negative_diagonal derived state prow Ep) as [Hnn Hsum].
      assert (Hlen : List.length prow = MarkovChain.m initial_dist).
      { rewrite Hprow, length_map. unfold enumerate.
        rewrite enumerate_from_length.
        rewrite (is_square row (nth_error_In _ _ Hr)). exact same_size. }
      destruct (choice_on_probability_vector _ prow gs Hlen Hnn
                  (sum_one_within_atol prow Hsum)) as (s' & -> & Hs').
      apply IH. exact Hs'.
    + exfalso. apply nth_error_None in Ep.
      pose proof (derive_transition_matrix_OK g negative_diagonal) as HP.
      rewrite derived in HP. inversion HP; subst.
      rewrite length_map in Ep. unfold enumerate in Ep.
      rewrite enumerate_from_length in Ep. lia.
Qed.

End EmbeddedChain.

(** ** The embedded chain returns *)

(** X6.  Take a square generator that validation accepts, with strictly
    negative diagonal and as many states as [initial_dist] has entries,
    and an [initial_dist] that is a probability vector (up to the
    tolerance of [choice]).  Then the discrete-time chain built on the
    derived transition matrix raises at no index: it reports a state of
    [range(m)]. *)
Theorem embedded_chain_never_raises :
  forall (RS : RandomState) (Label : Type) (g P : matrix)
         (initial_dist : list Q) (seed : Z) (n : nat) (gs : rng),
    check_generator g = OK tt ->
    square g ->
    List.length g = List.length initial_dist ->
    (forall i row, nth_error g i = Some row ->
       exists d, nth_error row i = Some d /\ (d < 0)%Q) ->
    (forall q, In q initial_dist -> 0 <= q)%Q ->
    (Qabs (py_sum initial_dist - 1) <= atol)%Q ->
    derive_transition_matrix g = OK P ->
    exists s,
      fst (@MarkovChain.x RS Label P initial_dist None seed n gs) = OK (State s) /\
      (s < List.length initial_dist)%nat.
Proof.
  intros RS Label g P dist seed n gs Hc Hsq Hlen Hdiag Hnn Hsum HP.
  rewrite x_unfold.
  destruct (choice_on_probability_vector (MarkovChain.m dist) dist
              (seed_state seed) eq_refl Hnn Hsum) as (s0 & -> & Hs0).
  destruct (embedded_walk_returns g P dist Hc Hsq Hlen Hdiag HP n s0
              (snd (next_double_bits (seed_state seed))) Hs0)
    as (s & gs' & -> & Hs).
  exists s. split; [reflexivity | exact Hs].
Qed.

Lemma embedded_chain_never_raises_witness :
  exists P s,
    derive_transition_matrix [[-1; 1]; [2; -2]]%Q = OK P /\
    fst (@MarkovChain.x LCG unit P [1 # 2; 1 # 2]%Q None 11%Z 5 0%Z)
      = OK (State s) /\
    (s < 2)%nat.
Proof.
  set (g := [[-1; 1]; [2; -2]]%Q).
  assert (Hc : check_generator g = OK tt) by (vm_compute; reflexivity).
  assert (Hsq : square g).
  { intros row [<- | [<- | []]]; reflexivity. }
  assert (Hd : forall i row, nth_error g i = Some row ->
                 exists d, nth_error row i = Some d /\ (d < 0)%Q).
  { intros [|[|[|i]]] row H; simpl in H; inversion H; subst;
      eexists; (split; [reflexivity|reflexivity]). }
  assert (Hnn : (forall q, In q [1 # 2; 1 # 2] -> 0 <= q)%Q).
  { intros q [<- | [<- | []]]; vm_compute; discriminate. }
  assert (Hsum : (Qabs (py_sum [1 # 2; 1 # 2] - 1) <= atol)%Q)
    by (vm_compute; discriminate).
  destruct (derive_transition_matrix g) as [P|e] eqn:EP;
    [|vm_compute in EP; discriminate].
  destruct (@embedded_chain_never_raises LCG unit g P [1 # 2; 1 # 2]%Q 11%Z
              5%nat 0%Z Hc Hsq eq_refl Hd Hnn Hsum EP) as (s & Hs & Hlt).
  exists P, s. auto.
Defined.

(* ================================================================== *)
(** * When construction succeeds *)
(* ================================================================== *)

Lemma list_comp_OK_each {A B} (l : list A) (f : A -> result B) (v : list B) :
  list_comp l f = OK v -> forall a, In a l -> exists b, f a = OK b.
Proof.
  revert v. induction l as [|a l IH]; intros v H b Hb; [contradiction|].
  cbn [list_comp] in H.
  destruct (f a) as [fa|e] eqn:Ea; [|discriminate]. cbn [bind] in H.
  destruct (list_comp l f) as [vs|e] eqn:El; [|discriminate].
  destruct Hb as [<- | Hb]; [eauto|]. exact (IH vs eq_refl b Hb).
Qed.

Lemma list_comp_each_OK {A B} (l : list A) (f : A -> result B) :
  (forall a, In a l -> exists b, f a = OK b) -> exists v, list_comp l f = OK v.
Proof.
  induction l as [|a l IH]; intros H; cbn [list_comp]; [eauto|].
  destruct (H a (or_introl eq_refl)) as [b ->]. cbn [bind].
  destruct (IH (fun c Hc => H c (or_intror Hc))) as [vs ->]. cbn [bind]. eauto.
Qed.

Lemma list_comp_Err_some {A B} (l : list A) (f : A -> result B) (e : exn) :
  list_comp l f = Err e -> exists a, In a l /\ f a = Err e.
Proof.
  induction l as [|a l IH]; cbn [list_comp]; [discriminate|].
  destruct (f a) as [fa|e'] eqn:Ea; cbn [bind].
  - destruct (list_comp l f) as [vs|e''] eqn:El; cbn [bind]; [discriminate|].
    intros H. inversion H; subst.
    destruct (IH eq_refl) as (b & Hb & Hbe). exists b.
    split; [right; exact Hb | exact Hbe].
  - intros H. exists a. split; [left; reflexivity | congruence].
Qed.

Lemma rounded_div_cases (round : Q -> Q) (a b : Q) :
  ((b == 0)%Q /\ Rounded.div round a b = Err ZeroDivisionError) \/
  (~ (b == 0)%Q /\ Rounded.div round a b = OK (round (a / b)%Q)).
Proof.
  unfold Rounded.div. destruct (Qeq_bool b 0) eqn:E.
  - left. apply Qeq_bool_iff in E. auto.
  - right. split; [|reflexivity]. intros H. apply Qeq_bool_iff in H. congruence.
Qed.

Lemma rounded_transition_row_OK_iff (round : Q -> Q) (i : nat) (row : list Q) :
  (exists prow, Rounded.transition_row round (i, row) = OK prow) <->
  row_derivable i row.
Proof.
  unfold Rounded.transition_row, row_derivable, getitem. split.
  - intros [prow H]. destruct (nth_error row i) as [d|] eqn:Ed; [|discriminate].
    cbn [bind] in H. exists d. split; [reflexivity|]. intros Hz.
    assert (Hi : (i < List.length row)%nat)
      by (apply nth_error_Some; congruence).
    destruct (Nat.le_gt_cases (List.length row) 1) as [Hle | Hgt]; [lia|].
    exfalso.
    set (j := if (i =? 0)%nat then 1%nat else 0%nat).
    assert (Hj : (j < List.length row)%nat)
      by (unfold j; destruct (i =? 0)%nat; lia).
    assert (Hji : (j =? i)%nat = false).
    { unfold j. destruct (i =? 0)%nat eqn:E.
      - apply Nat.eqb_eq in E. subst. reflexivity.
      - rewrite Nat.eqb_sym. exact E. }
    destruct (nth_error row j) as [p|] eqn:Ep;
      [|apply nth_error_None in Ep; lia].
    assert (Hin : In (j, p) (enumerate row)) by (apply In_enumerate; exact Ep).
    destruct (list_comp_OK_each _ _ _ H (j, p) Hin) as [b Hb].
    unfold Rounded.transition_entry in Hb. rewrite Hji in Hb.
    cbn [negb] in Hb.
    destruct (rounded_div_cases round p (- d)) as [[_ Hdiv] | [Hnz _]].
    + rewrite Hdiv in Hb. discriminate.
    + apply Hnz. lra.
  - intros (d & Hd & Hone). rewrite Hd. cbn [bind].
    apply list_comp_each_OK. intros [j p] Hin. apply In_enumerate in Hin.
    unfold Rounded.transition_entry.
    destruct (j =? i)%nat eqn:Eji; cbn [negb]; [eauto|].
    destruct (rounded_div_cases round p (- d)) as [[Hz _] | [_ Hdiv]];
      [|rewrite Hdiv; eauto].
    exfalso. assert (Hz' : (d == 0)%Q) by lra. specialize (Hone Hz').
    assert (Hi : (i < List.length row)%nat)
      by (apply nth_error_Some; congruence).
    assert (Hj : (j < List.length row)%nat)
      by (apply nth_error_Some; congruence).
    apply Nat.eqb_neq in Eji. lia.
Qed.

Lemma rounded_transition_row_Err (round : Q -> Q) (i : nat) (row : list Q)
    (e : exn) :
  Rounded.transition_row round (i, row) = Err e ->
  e = IndexError \/ e = ZeroDivisionError.
Proof.
  unfold Rounded.transition_row, getitem.
  destruct (nth_error row i) as [d|]; cbn [bind].
  - intros H. apply list_comp_Err_some in H.
    destruct H as ([j p] & _ & H). unfold Rounded.transition_entry in H.
    destruct (negb (j =? i)%nat); [|discriminate].
    destruct (rounded_div_cases round p (- d)) as [[_ Hdiv] | [_ Hdiv]];
      rewrite Hdiv in H; [|discriminate].
    inversion H. auto.
  - intros H. inversion H. auto.
Qed.

(** ** Construction *)

(** X7.  Whatever the rounding of the arithmetic, construction returns a
    chain exactly when [check_generator] returns and every row [i] has a
    diagonal entry [row[i]] which, if it is zero, is the row's only
    entry.  When construction raises, it raises one of the three
    messages of [check_generator], [IndexError] (a row too short to have
    a diagonal entry: squareness is not checked) or [ZeroDivisionError]
    (a zero diagonal entry beside other entries). *)
Theorem construction_succeeds_iff :
  forall (round : Q -> Q) (Label : Type) (g : matrix) (dist : list Q)
         (labels : option (list Label)),
    ((exists c, Rounded.init round g dist labels = OK c) <->
     (Rounded.check_generator round g = OK tt /\
      forall i row, nth_error g i = Some row -> row_derivable i row)) /\
    (forall e, Rounded.init round g dist labels = Err e ->
       e = Exception msg_row_sum \/ e = Exception msg_diagonal \/
       e = Exception msg_off_diagonal \/
       e = IndexError \/ e = ZeroDivisionError).
Proof.
  intros round Label g dist labels. unfold Rounded.init. split; [split|].
  - intros [c H].
    destruct (Rounded.check_generator round g) as [[]|e] eqn:Ec; [|discriminate].
    cbn [bind] in H.
    destruct (Rounded.derive_transition_matrix round g) as [tm|e] eqn:Ed;
      [|discriminate].
    split; [reflexivity|].
    intros i row Hi. apply (rounded_transition_row_OK_iff round).
    apply (list_comp_OK_each _ _ _ Ed (i, row)).
    apply In_enumerate. exact Hi.
  - intros [Hok Hrows]. rewrite Hok. cbn [bind].
    destruct (list_comp_each_OK (enumerate g) (Rounded.transition_row round))
      as [tm Htm].
    + intros [i row] Hin. apply In_enumerate in Hin.
      apply rounded_transition_row_OK_iff. exact (Hrows i row Hin).
    + unfold Rounded.derive_transition_matrix. rewrite Htm. cbn [bind]. eauto.
  - intros e H.
    destruct (Rounded.check_generator round g) as [[]|e'] eqn:Ec;
      cbn [bind] in H.
    + destruct (Rounded.derive_transition_matrix round g) as [tm|e''] eqn:Ed;
        cbn [bind] in H; [discriminate|].
      inversion H; subst. apply list_comp_Err_some in Ed.
      destruct Ed as ([i row] & _ & Hr).
      apply rounded_transition_row_Err in Hr. tauto.
    + inversion H; subst. apply rounded_check_generator_Err in Ec. tauto.
Qed.

(** A generator that is not square passes validation and fails later:
    row 1 of [[[0], [0]]] has no diagonal entry. *)
Example construction_of_ragged_generator :
  Rounded.check_generator (fun q => q) [[0]; [0]]%Q = OK tt /\
  @Rounded.init (fun q => q) unit [[0]; [0]]%Q [1; 0]%Q None = Err IndexError.
Proof. split; vm_compute; reflexivity. Qed.

(* ================================================================== *)
(** * The evaluation rule and the jump times *)
(* ================================================================== *)

Lemma for_fold_app {A S} (l1 l2 : list A) (body : A -> S -> result S) (s : S) :
  for_fold (l1 ++ l2) body s
  = (s' <- for_fold l1 body s ;; for_fold l2 body s').
Proof.
  revert s. induction l1 as [|a l1 IH]; intros s; cbn [app for_fold bind].
  - reflexivity.
  - destruct (body a s) as [s1|e]; cbn [bind]; [apply IH | reflexivity].
Qed.

Section JumpTimes.

Context {Label : Type}.

Variables (self : chain Label) (x : outcome).

(** One pass of the loop of [fun(x, t)], in terms of [InterjumpTimes]. *)
Lemma fun_loop_S (t : Q) (fuel : nat) (total_time : Q) (n : nat) :
  fun_loop self x t (S fuel) total_time n =
  match states x n, InterjumpTimes_fun self x n with
  | OK state, OK d =>
      if Qltb t (total_time + d)
      then Some (OK (n, state))
      else fun_loop self x t fuel (total_time + d)%Q (S n)
  | Err e, _ => Some (Err e)
  | OK _, Err e => Some (Err e)
  end.
Proof.
  cbn [fun_loop]. unfold InterjumpTimes_fun.
  destruct (states x n) as [state|e]; cbn [bind]; [|reflexivity].
  destruct (rate_of self state) as [rate|e]; cbn [bind]; [|reflexivity].
  destruct (py_div (times x n) rate); reflexivity.
Qed.

End JumpTimes.

Section RoundedJumpTimes.

Context {Label : Type}.

Variables (round : Q -> Q) (self : chain Label) (x : outcome).

Local Notation "'holding'" := (Rounded.InterjumpTimes_fun round self x).
Local Notation "'total'" := (Rounded.running_total round self x).
Local Notation "'loop'" := (Rounded.fun_loop round self x).

(** The running total after [n + 1] passes is the one after [n] passes
    plus the holding time at index [n]. *)
Lemma running_total_S (n : nat) :
  total (S n)
  = (c <- total n ;; d <- holding n ;; OK (Rounded.add round c d)).
Proof.
  unfold Rounded.running_total, range. rewrite seq_S, for_fold_app.
  cbn [Nat.add for_fold].
  destruct (for_fold (seq 0 n) _ 0%Q) as [c|e]; cbn [bind]; [|reflexivity].
  destruct (holding n) as [d|e]; reflexivity.
Qed.

Lemma rounded_fun_loop_S (t : Q) (fuel : nat) (total_time : Q) (n : nat) :
  loop t (S fuel) total_time n =
  match states x n, holding n with
  | OK state, OK d =>
      if Qltb t (Rounded.add round total_time d)
      then Some (OK (n, state))
      else loop t fuel (Rounded.add round total_time d) (S n)
  | Err e, _ => Some (Err e)
  | OK _, Err e => Some (Err e)
  end.
Proof.
  cbn [Rounded.fun_loop]. unfold Rounded.InterjumpTimes_fun.
  destruct (states x n) as [state|e]; cbn [bind]; [|reflexivity].
  destruct (rate_of self state) as [rate|e]; cbn [bind]; [|reflexivity].
  destruct (Rounded.div round (times x n) rate); reflexivity.
Qed.

Lemma rounded_fun_loop_stop (t : Q) (fuel : nat) :
  forall total_time n k s,
    loop t fuel total_time n = Some (OK (k, s)) ->
    (n <= k)%nat /\ states x k = OK s.
Proof.
  induction fuel as [|fuel IH]; intros total_time n k s H; [discriminate|].
  rewrite rounded_fun_loop_S in H.
  destruct (states x n) as [state|e] eqn:Es; [|discriminate].
  destruct (holding n) as [d|e]; [|discriminate].
  destruct (Qltb t (Rounded.add round total_time d)).
  - inversion H; subst. auto.
  - apply IH in H. destruct H. split; [lia | trivial].
Qed.

(** A run entered at index [n] with the running total of [n] passes:
    where it stops, the next total is above [t] and the totals passed on
    the way are not. *)
Lemma rounded_fun_loop_between (t : Q) (fuel : nat) :
  forall total_time n k s,
    total n = OK total_time ->
    loop t fuel total_time n = Some (OK (k, s)) ->
    (exists c, total (S k) = OK c /\ (t < c)%Q) /\
    (forall j, (n < j <= k)%nat -> exists c, total j = OK c /\ (c <= t)%Q).
Proof.
  induction fuel as [|fuel IH]; intros total_time n k s Hn H; [discriminate|].
  rewrite rounded_fun_loop_S in H.
  destruct (states x n) as [state|e]; [|discriminate].
  destruct (holding n) as [d|e] eqn:Ed; [|discriminate].
  assert (HS : total (S n) = OK (Rounded.add round total_time d))
    by (rewrite running_total_S, Hn; cbn [bind]; rewrite Ed; reflexivity).
  destruct (Qltb t (Rounded.add round total_time d)) eqn:E.
  - inversion H; subst. split.
    + eexists. split; [exact HS|]. apply Qltb_true. exact E.
    + intros j Hj. lia.
  - destruct (IH _ _ _ _ HS H) as [Hnext Hpassed]. split; [exact Hnext|].
    intros j Hj. destruct (Nat.eq_dec j (S n)) as [-> | Hne].
    + eexists. split; [exact HS|]. apply Qltb_false. exact E.
    + apply Hpassed. lia.
Qed.

(** Conversely: if the total after [k + 1] passes is the first one above
    [t], a run with more than [k - n] passes left stops at [k]. *)
Lemma rounded_fun_loop_reaches (t : Q) (k s : nat) (c : Q) :
  states x k = OK s ->
  total (S k) = OK c -> (t < c)%Q ->
  (forall j, (1 <= j <= k)%nat -> exists cj, total j = OK cj /\ (cj <= t)%Q) ->
  forall todo n total_time fuel,
    (n + todo = k)%nat ->
    total n = OK total_time ->
    (todo < fuel)%nat ->
    loop t fuel total_time n = Some (OK (k, s)).
Proof.
  intros Hs Hk Hc Hpassed.
  induction todo as [|todo IH]; intros n total_time fuel Hnk Hn Hfuel;
    (destruct fuel as [|fuel]; [lia|]); rewrite rounded_fun_loop_S.
  - assert (n = k) by lia. subst n. rewrite Hs.
    rewrite running_total_S, Hn in Hk. cbn [bind] in Hk.
    destruct (holding k) as [d|e]; [|discriminate].
    inversion Hk; subst.
    apply Qltb_true in Hc. rewrite Hc. reflexivity.
  - destruct (Hpassed (S n)) as (cj & Hcj & Hle); [lia|].
    rewrite running_total_S, Hn in Hcj. cbn [bind] in Hcj.
    destruct (holding n) as [d|e] eqn:Ed; [|discriminate].
    inversion Hcj; subst.
    assert (Hst : exists state, states x n = OK state).
    { unfold Rounded.InterjumpTimes_fun in Ed.
      destruct (states x n) as [state|e]; [eauto | discriminate]. }
    destruct Hst as [state ->].
    apply Qltb_false in Hle. rewrite Hle.
    apply IH; [lia | | lia].
    rewrite running_total_S, Hn. cbn [bind]. rewrite Ed. reflexivity.
Qed.

(** The loop of [JumpTimes] adds the same holding time in every pass. *)
Lemma rounded_JumpTimes_loop_repeats (n : nat) (d : Q) :
  holding n = OK d ->
  forall (k a : nat) (total_time : Q),
    for_fold (seq a k) (Rounded.JumpTimes_body round self x n) total_time
    = OK (Nat.iter k (fun v => Rounded.add round v d) total_time).
Proof.
  intros Hd. unfold Rounded.InterjumpTimes_fun in Hd.
  induction k as [|k IH]; intros a total_time; [reflexivity|].
  rewrite Nat.iter_succ_r. cbn [seq for_fold].
  unfold Rounded.JumpTimes_body at 1.
  destruct (states x n) as [state|e]; [|discriminate]. cbn [bind] in *.
  destruct (rate_of self state) as [rate|e]; [|discriminate]. cbn [bind] in *.
  rewrite Hd. cbn [bind]. apply IH.
Qed.

End RoundedJumpTimes.

(** ** The state at time t *)

(** X8.  Whatever the rounding of the arithmetic, the loop of the
    evaluation rule stops at index [k], with state [states[k]], exactly
    when its own running total (the holding times [times[i] /
    rate(states[i])] added up from 0 in the order of the passes) is
    [<= t] after each of the passes [1..k] and [> t] after pass [k + 1];
    at a time equal to a running total the loop goes on to the next
    state.  Any fuel above [k] is enough for the loop to return. *)
Theorem fun_returns_state_between_jumps :
  forall (round : Q -> Q) (Label : Type) (self : chain Label) (x : outcome)
         (t : Q) (k s : nat),
    let first_total_above_t :=
      states x k = OK s /\
      (exists c, Rounded.running_total round self x (S k) = OK c /\ (t < c)%Q) /\
      (forall j, (1 <= j <= k)%nat ->
         exists c, Rounded.running_total round self x j = OK c /\ (c <= t)%Q) in
    (forall fuel,
       Rounded.fun_loop round self x t fuel 0 0%nat = Some (OK (k, s)) ->
       first_total_above_t) /\
    (first_total_above_t ->
     forall fuel, (k < fuel)%nat ->
       Rounded.fun_loop round self x t fuel 0 0%nat = Some (OK (k, s))).
Proof.
  intros round Label self x t k s first_total_above_t.
  unfold first_total_above_t. split.
  - intros fuel H.
    destruct (rounded_fun_loop_between round self x t fuel 0%Q 0%nat k s
                eq_refl H) as [Hnext Hpassed].
    split; [exact (proj2 (rounded_fun_loop_stop round self x t fuel _ _ _ _ H))|].
    split; [exact Hnext|]. intros j Hj. apply Hpassed. lia.
  - intros (Hs & (c & Hc & Hlt) & Hpassed) fuel Hfuel.
    apply (rounded_fun_loop_reaches round self x t k s c Hs Hc Hlt Hpassed
             k 0%nat 0%Q fuel); [lia | reflexivity | exact Hfuel].
Qed.

(** ** What JumpTimes computes *)

(** X9.  Whatever the rounding of the arithmetic, [JumpTimes] at index 0
    is 0 for every outcome, whatever its states.  At an index [n >= 1]
    it raises what [InterjumpTimes] raises at [n]; otherwise its value
    is the value [d] of [InterjumpTimes] at [n] added to 0 [n] times
    over ([0 + d + ... + d], rounded at every addition). *)
Theorem JumpTimes_fun_in_terms_of_InterjumpTimes :
  forall (round : Q -> Q) (Label : Type) (self : chain Label) (x : outcome)
         (n : nat),
    Rounded.JumpTimes_fun round self x 0 = OK 0%Q /\
    (forall e, Rounded.InterjumpTimes_fun round self x (S n) = Err e ->
               Rounded.JumpTimes_fun round self x (S n) = Err e) /\
    (forall d, Rounded.InterjumpTimes_fun round self x n = OK d ->
       Rounded.JumpTimes_fun round self x n
       = OK (Nat.iter n (fun v => Rounded.add round v d) 0%Q)).
Proof.
  intros round Label self x n. split; [reflexivity|]. split.
  - intros e He. unfold Rounded.JumpTimes_fun, range. cbn [seq for_fold].
    unfold Rounded.JumpTimes_body at 1.
    unfold Rounded.InterjumpTimes_fun in He.
    destruct (states x (S n)) as [state|e']; cbn [bind] in *;
      [|congruence].
    destruct (rate_of self state) as [rate|e']; cbn [bind] in *;
      [|congruence].
    rewrite He. reflexivity.
  - intros d Hd. unfold Rounded.JumpTimes_fun, range.
    exact (rounded_JumpTimes_loop_repeats round self x n d Hd n 0%nat 0%Q).
Qed.

(* ================================================================== *)
(** * When the evaluation rule cannot raise *)
(* ================================================================== *)

Section NoRaise.

Context {Label : Type}.

Variables (self : chain Label) (x : outcome).

(** Every state of the path has a row with a strictly negative diagonal
    entry. *)
Hypothesis path_has_rates :
  forall n, exists s row d,
    states x n = OK s /\
    nth_error (generator_matrix self) s = Some row /\
    nth_error row s = Some d /\ (d < 0)%Q.

Lemma InterjumpTimes_fun_returns (n : nat) :
  exists d, InterjumpTimes_fun self x n = OK d.
Proof.
  destruct (path_has_rates n) as (s & row & d & Hs & Hrow & Hd & Hneg).
  unfold InterjumpTimes_fun, rate_of, getitem.
  rewrite Hs. cbn [bind]. rewrite Hrow. cbn [bind]. rewrite Hd. cbn [bind].
  unfold py_div. rewrite Qeq_bool_opp_nonzero by lra. eauto.
Qed.

Lemma fun_loop_raises_nothing (t : Q) (fuel : nat) :
  forall total_time n,
    fun_loop self x t fuel total_time n = None \/
    exists k s, fun_loop self x t fuel total_time n = Some (OK (k, s)).
Proof.
  induction fuel as [|fuel IH]; intros total_time n; [left; reflexivity|].
  rewrite fun_loop_S.
  destruct (InterjumpTimes_fun_returns n) as [d ->].
  destruct (path_has_rates n) as (s & _ & _ & -> & _).
  destruct (Qltb t (total_time + d)); [right; eauto | apply IH].
Qed.

End NoRaise.

(** ** No exception on a negative diagonal *)

(** X10.  If every state on the path has a row in the generator matrix
    whose diagonal entry is strictly negative, and [state_labels] (when
    given) has a label for every row, the evaluation rule raises nothing
    at any time [t]: it returns a value, unless the loop is cut off. *)
Theorem fun_raises_nothing_on_negative_diagonal :
  forall (Label : Type) (self : chain Label) (x : outcome) (t : Q)
         (fuel : nat),
    (forall n, exists s row d,
       states x n = OK s /\
       nth_error (generator_matrix self) s = Some row /\
       nth_error row s = Some d /\ (d < 0)%Q) ->
    (forall labels, state_labels self = Some labels ->
       (List.length (generator_matrix self) <= List.length labels)%nat) ->
    fun_ self x t fuel = None \/ exists v, fun_ self x t fuel = Some (OK v).
Proof.
  intros Label self x t fuel Hpath Hlabels. unfold fun_.
  destruct (fun_loop_raises_nothing self x Hpath t fuel 0%Q 0%nat)
    as [-> | (k & s & H)]; [left; reflexivity|].
  rewrite H. right.
  apply fun_loop_stop in H. destruct H as [_ Hs].
  destruct (Hpath k) as (s' & row & d & Hs' & Hrow & _).
  assert (s' = s) by congruence. subst s'.
  unfold report. destruct (state_labels self) as [labels|] eqn:El; [|eauto].
  unfold getitem.
  destruct (nth_error labels s) as [l|] eqn:E; [cbn [bind]; eauto|].
  exfalso. apply nth_error_None in E.
  assert (s < List.length (generator_matrix self))%nat
    by (apply nth_error_Some; congruence).
  specialize (Hlabels labels eq_refl). lia.
Qed.

Lemma fun_raises_nothing_on_negative_diagonal_witness :
  fun_ Examples.flip_flop Examples.flip_flop_outcome 3 5 = None \/
  exists v, fun_ Examples.flip_flop Examples.flip_flop_outcome 3 5 = Some (OK v).
Proof.
  apply fun_raises_nothing_on_negative_diagonal.
  - intros n. exists (n mod 2)%nat.
    assert (H : (n mod 2 < 2)%nat) by (apply Nat.mod_upper_bound; discriminate).
    unfold Examples.flip_flop_outcome, Examples.flip_flop.
    cbn [states generator_matrix].
    destruct (n mod 2)%nat as [|[|r]]; [| |lia].
    + exists [-1; 1]%Q, (-1)%Q. repeat split.
    + exists [1; -1]%Q, (-1)%Q. repeat split.
  - intros labels H. discriminate.
Defined.

(* ================================================================== *)
(** * Exponential and Gamma *)
(* ================================================================== *)

Import Distributions.

Lemma py_div_one_nonzero (r : Q) : ~ (r == 0)%Q -> py_div 1 r = OK (1 / r)%Q.
Proof.
  intros H. unfold py_div. destruct (Qeq_bool r 0) eqn:E; [|reflexivity].
  apply Qeq_bool_iff in E. contradiction.
Qed.

Lemma py_div_one_zero (r : Q) : (r == 0)%Q -> py_div 1 r = Err ZeroDivisionError.
Proof.
  intros H. unfold py_div. apply Qeq_bool_iff in H. rewrite H. reflexivity.
Qed.

Lemma Qinv_one_sign (r : Q) :
  ((0 < r -> 0 < 1 / r) /\ (r < 0 -> 1 / r < 0))%Q.
Proof.
  unfold Qdiv. split; intros H.
  - assert (0 < / r)%Q by (apply Qinv_lt_0_compat; exact H). lra.
  - assert (Hk : (r * / r == 1)%Q) by (apply Qmult_inv_r; lra).
    assert (Hneg : (/ r < 0)%Q) by nra. lra.
Qed.

Section ScaleFamilies.

Context {RS : RandomState} {SA : Samplers RS}.

Lemma exponential_nonneg_scale (scale : Q) (g : rng) :
  (0 <= scale)%Q ->
  exponential scale g
  = (OK (scale * fst (standard_exponential g))%Q, snd (standard_exponential g)).
Proof.
  intros H. unfold exponential.
  assert (E : Qltb scale 0 = false) by (apply Qltb_false; exact H).
  rewrite E. destruct (standard_exponential g). reflexivity.
Qed.

Lemma exponential_negative_scale (scale : Q) (g : rng) :
  (scale < 0)%Q -> exponential scale g = (Err (ValueError "scale < 0"), g).
Proof.
  intros H. unfold exponential. apply Qltb_true in H. rewrite H. reflexivity.
Qed.

Lemma gamma_nonneg (shape scale : Q) (g : rng) :
  (0 <= shape)%Q -> (0 <= scale)%Q ->
  gamma shape scale g
  = (OK (scale * fst (standard_gamma shape g))%Q, snd (standard_gamma shape g)).
Proof.
  intros H1 H2. unfold gamma.
  assert (E1 : Qltb shape 0 = false) by (apply Qltb_false; exact H1).
  assert (E2 : Qltb scale 0 = false) by (apply Qltb_false; exact H2).
  rewrite E1, E2. destruct (standard_gamma shape g). reflexivity.
Qed.

Lemma gamma_negative (shape scale : Q) (g : rng) :
  (shape < 0 \/ scale < 0)%Q ->
  exists msg, gamma shape scale g = (Err (ValueError msg), g).
Proof.
  intros H. unfold gamma, raise.
  destruct (Qltb shape 0) eqn:E1; [eauto|].
  destruct (Qltb scale 0) eqn:E2; [eauto|].
  apply Qltb_false in E1, E2. exfalso. destruct H; lra.
Qed.

End ScaleFamilies.

(** ** Exponential: rate and scale *)

(** X11.  Whatever the rounding of the arithmetic, for a rate [r] other
    than 0, [Exponential(rate=r).draw()] does what
    [Exponential(scale=s).draw()] does for [s] the computed [1. / r],
    whatever rate the second object carries: from the same state of the
    generator both return the standard exponential sample multiplied by
    [s], or both raise [ValueError] when [s] is negative. *)
Theorem Exponential_rate_draws_as_reciprocal_scale :
  forall (round : Q -> Q) (RS : RandomState) (SA : Samplers RS) (r r' : Q)
         (g : rng),
    ~ (r == 0)%Q ->
    let s := round (1 / r)%Q in
    Exponential_draw_rounded round (Exponential_init r None) g
      = Exponential_draw_rounded round (Exponential_init r' (Some s)) g /\
    ((0 <= s)%Q ->
     Exponential_draw_rounded round (Exponential_init r None) g
     = (OK (round (s * fst (standard_exponential g))%Q),
        snd (standard_exponential g))) /\
    ((s < 0)%Q ->
     Exponential_draw_rounded round (Exponential_init r None) g
     = (Err (ValueError "scale < 0"), g)).
Proof.
  intros round RS SA r r' g Hr s.
  unfold Exponential_draw_rounded, Exponential_init.
  cbn [Exponential_scale Exponential_rate]. unfold bindM, lift.
  destruct (rounded_div_cases round 1 r) as [[Hz _] | [_ Hdiv]];
    [contradiction|].
  rewrite Hdiv. fold s. split; [reflexivity|].
  unfold exponential_rounded, raise, Rounded.mul. split; intros Hs.
  - assert (E : Qltb s 0 = false) by (apply Qltb_false; exact Hs).
    rewrite E. destruct (standard_exponential g). reflexivity.
  - apply Qltb_true in Hs. rewrite Hs. reflexivity.
Qed.

Lemma Exponential_rate_draws_as_reciprocal_scale_witness :
  @Exponential_draw_rounded LCG LCG_samplers (fun q => q)
     (Exponential_init 3 None) 3%Z
  = @Exponential_draw_rounded LCG LCG_samplers (fun q => q)
     (Exponential_init 0 (Some (1 / 3)%Q)) 3%Z.
Proof.
  assert (Hr : ~ (3 == 0)%Q) by (intros H; vm_compute in H; discriminate).
  exact (proj1 (Exponential_rate_draws_as_reciprocal_scale (fun q => q)
                  LCG LCG_samplers 3 0 3%Z Hr)).
Defined.

(** ** Exponential: when draw raises *)

(** X12.  [Exponential.__init__] checks nothing; [draw()] raises exactly
    when no scale is given and the rate is [<= 0], or the given scale is
    negative.  A zero rate raises [ZeroDivisionError], the other cases
    [ValueError]; the generator is left as it was.  When [draw()]
    returns, the value is not negative. *)
Theorem Exponential_draw_raises_iff :
  forall (RS : RandomState) (SA : Samplers RS) (self : Exponential) (g : rng),
    ((exists e, fst (Exponential_draw self g) = Err e) <->
     match Exponential_scale self with
     | None => (Exponential_rate self <= 0)%Q
     | Some scale => (scale < 0)%Q
     end) /\
    (forall e g', Exponential_draw self g = (Err e, g') ->
       g' = g /\
       (e = ZeroDivisionError <->
        Exponential_scale self = None /\ (Exponential_rate self == 0)%Q) /\
       (e = ZeroDivisionError \/ exists msg, e = ValueError msg)) /\
    (forall v g', Exponential_draw self g = (OK v, g') -> (0 <= v)%Q).
Proof.
  intros RS SA [scale rate] g. unfold Exponential_draw.
  cbn [Exponential_scale Exponential_rate].
  pose proof (standard_exponential_nonneg g) as He.
  destruct scale as [scale|].
  - destruct (Qlt_le_dec scale 0) as [Hneg | Hnn].
    + rewrite (exponential_negative_scale scale g Hneg). cbn [fst].
      split; [split; [intros _; exact Hneg | eauto]|]. split.
      * intros e g' H. inversion H; subst. split; [reflexivity|]. split.
        -- split; [discriminate | intros [H1 _]; discriminate].
        -- right. eauto.
      * intros v g' H. discriminate.
    + rewrite (exponential_nonneg_scale scale g Hnn). cbn [fst].
      split; [split; [intros [e H]; discriminate | intros H; exfalso; lra]|].
      split; [intros e g' H; discriminate|].
      intros v g' H. inversion H; subst. nra.
  - unfold bindM, lift.
    destruct (Qeq_dec rate 0) as [Hz | Hnz].
    + rewrite (py_div_one_zero rate Hz). cbn [fst].
      split; [split; [intros _; lra | eauto]|]. split.
      * intros e g' H. inversion H; subst. split; [reflexivity|]. split.
        -- split; [auto | reflexivity].
        -- left. reflexivity.
      * intros v g' H. discriminate.
    + rewrite (py_div_one_nonzero rate Hnz).
      destruct (Qinv_one_sign rate) as [Hpos Hneg].
      destruct (Qlt_le_dec rate 0) as [Hlt | Hge].
      * rewrite (exponential_negative_scale _ g (Hneg Hlt)). cbn [fst].
        split; [split; [intros _; lra | eauto]|]. split.
        -- intros e g' H. inversion H; subst. split; [reflexivity|]. split.
           ++ split; [discriminate | intros [_ Hz]; contradiction].
           ++ right. eauto.
        -- intros v g' H. discriminate.
      * assert (Hr : (0 < rate)%Q) by lra. specialize (Hpos Hr).
        rewrite exponential_nonneg_scale by lra. cbn [fst].
        split; [split; [intros [e H]; discriminate | intros H; exfalso; lra]|].
        split; [intros e g' H; discriminate|].
        intros v g' H. inversion H; subst. nra.
Qed.

(** ** Gamma: when draw raises *)

(** X13.  [Gamma.draw()] divides by the rate before anything else: with
    no scale and a zero rate it raises [ZeroDivisionError], even for a
    negative shape.  Otherwise it raises [ValueError] exactly when the
    shape or the scale in force ([1/rate], or the given scale) is
    negative, and else returns a value that is not negative.  A given
    scale makes the rate irrelevant. *)
Theorem Gamma_draw_cases :
  forall (RS : RandomState) (SA : Samplers RS) (shape rate : Q)
         (scale : option Q) (g : rng),
    let self := Gamma_init shape rate scale in
    (scale = None -> (rate == 0)%Q ->
     Gamma_draw self g = (Err ZeroDivisionError, g)) /\
    (forall s, (scale = Some s \/ (scale = None /\ ~ (rate == 0)%Q /\ s = (1 / rate)%Q)) ->
       ((shape < 0 \/ s < 0)%Q ->
        exists msg, Gamma_draw self g = (Err (ValueError msg), g)) /\
       ((0 <= shape)%Q -> (0 <= s)%Q ->
        exists v g', Gamma_draw self g = (OK v, g') /\ (0 <= v)%Q)) /\
    (forall s rate', scale = Some s ->
       Gamma_draw (Gamma_init shape rate' scale) g = Gamma_draw self g).
Proof.
  intros RS SA shape rate scale g self. unfold self, Gamma_draw, Gamma_init.
  cbn [Gamma_scale Gamma_rate Gamma_shape]. split; [|split].
  - intros -> Hz. unfold bindM, lift. rewrite (py_div_one_zero rate Hz).
    reflexivity.
  - intros s Hs.
    assert (E : match scale with
                | Some scale0 => gamma shape scale0
                | None => scale0 <~ lift (py_div 1 rate);; gamma shape scale0
                end g = gamma shape s g).
    { destruct Hs as [-> | (-> & Hnz & ->)]; [reflexivity|].
      unfold bindM, lift. rewrite (py_div_one_nonzero rate Hnz). reflexivity. }
    rewrite E. split.
    + intros Hneg. exact (gamma_negative shape s g Hneg).
    + intros H1 H2. rewrite (gamma_nonneg shape s g H1 H2).
      pose proof (standard_gamma_nonneg shape g) as Hg.
      eexists. eexists. split; [reflexivity|]. nra.
  - intros s rate' ->. reflexivity.
Qed.

Lemma Gamma_draw_cases_witness :
  @Gamma_draw LCG LCG_samplers (Gamma_init (-1) 0 None) 3%Z
  = (Err ZeroDivisionError, 3%Z).
Proof.
  exact (proj1 (@Gamma_draw_cases LCG LCG_samplers (-1) 0 None 3%Z)
           eq_refl (Qeq_refl 0)).
Defined.

(* ================================================================== *)
(** * NegativeBinomial and Pascal *)
(* ================================================================== *)

(** X14.  From the same state of the generator, [NegativeBinomial] and
    [Pascal] with the same [r] and [p] raise the same exception or both
    return, the first [r] more than the second; when they return, [r] is
    at least 1 (numpy refuses [r <= 0]). *)
Theorem NegativeBinomial_is_Pascal_plus_r :
  forall (RS : RandomState) (SA : Samplers RS) (r : Z) (p : Q) (g : rng),
    let self := NegativeBinomial_init r p in
    (forall e g', Pascal_draw self g = (Err e, g') <->
                  NegativeBinomial_draw self g = (Err e, g')) /\
    (forall k g', Pascal_draw self g = (OK k, g') <->
                  NegativeBinomial_draw self g = (OK (r + k)%Z, g')) /\
    (forall v g', NegativeBinomial_draw self g = (OK v, g') -> (1 <= r)%Z).
Proof.
  intros RS SA r p g self.
  unfold self, NegativeBinomial_draw, Pascal_draw, NegativeBinomial_init.
  cbn [NegativeBinomial_r NegativeBinomial_p]. unfold bindM, ret.
  assert (Hk : forall k g', negative_binomial r p g = (OK k, g') ->
                 (1 <= r)%Z).
  { intros k g'. unfold negative_binomial, raise.
    destruct (r <=? 0)%Z eqn:Er; [discriminate|].
    destruct (Qltb p 0); [discriminate|].
    destruct (Qltb 1 p); [discriminate|].
    destruct (negative_binomial_count r p g) as [c g1].
    intros H. inversion H; subst. apply Z.leb_gt in Er. lia. }
  destruct (negative_binomial r p g) as [[k|e] g1] eqn:E.
  - specialize (Hk k g1 eq_refl). split; [|split].
    + intros e g'. split; discriminate.
    + intros k' g'. split; intros H; inversion H; subst.
      * reflexivity.
      * assert (k = k') by lia. subst. reflexivity.
    + intros v g' H. inversion H; subst. lia.
  - split; [|split].
    + intros e' g'. reflexivity.
    + intros k g'. split; discriminate.
    + intros v g' H. discriminate.
Qed.

Lemma NegativeBinomial_is_Pascal_plus_r_witness :
  exists k g',
    @Pascal_draw LCG LCG_samplers (NegativeBinomial_init 3 (1 # 2)) 9%Z
      = (OK k, g') /\
    @NegativeBinomial_draw LCG LCG_samplers (NegativeBinomial_init 3 (1 # 2)) 9%Z
      = (OK (3 + k)%Z, g').
Proof.
  destruct (@Pascal_draw LCG LCG_samplers (NegativeBinomial_init 3 (1 # 2)) 9%Z)
    as [[k|e] g'] eqn:E; [|vm_compute in E; discriminate].
  exists k, g'. split; [reflexivity|].
  exact (proj1 (proj1 (proj2 (@NegativeBinomial_is_Pascal_plus_r LCG
                                LCG_samplers 3%Z (1 # 2) 9%Z)) k g') E).
Defined.

(* ================================================================== *)
(** * MultivariateNormal and BivariateNormal *)
(* ================================================================== *)

(** X15.  [BivariateNormal.__init__] raises its correlation exception
    exactly when a correlation [c] is given with [c < -1] or [c >= 1]:
    [-1] is accepted and [1] is refused, and the check is made even when
    [cov] is given and [corr] goes unused. *)
Theorem BivariateNormal_correlation_check :
  forall (np_sqrt : Q -> Q) (mean1 mean2 sd1 sd2 : Q)
         (corr var1 var2 cov0 : option Q),
    (BivariateNormal_init np_sqrt mean1 mean2 sd1 sd2 corr var1 var2 cov0
     = Raised (Exception msg_correlation) <->
     exists c, corr = Some c /\ (c < -1 \/ 1 <= c)%Q) /\
    (forall e,
       BivariateNormal_init np_sqrt mean1 mean2 sd1 sd2 corr var1 var2 cov0
       = Raised e -> e = Exception msg_correlation) /\
    (BivariateNormal_init np_sqrt mean1 mean2 sd1 sd2 corr var1 var2 cov0
     = RaisedTypeError <-> corr = None /\ cov0 = None).
Proof.
  intros np_sqrt mean1 mean2 sd1 sd2 corr var1 var2 cov0.
  unfold BivariateNormal_init.
  destruct corr as [c|].
  - destruct (Qle_bool (-1) c) eqn:E1; destruct (Qltb c 1) eqn:E2; cbn [andb negb].
    + apply Qle_bool_iff in E1. apply Qltb_true in E2.
      split; [|split].
      * split; [destruct cov0; discriminate|].
        intros (c' & Hc & Hr). inversion Hc; subst. exfalso. destruct Hr; lra.
      * intros e. destruct cov0; discriminate.
      * split; [destruct cov0; discriminate | intros [H _]; discriminate].
    + apply Qltb_false in E2.
      split; [|split].
      * split; [intros _; exists c; auto | reflexivity].
      * intros e H. inversion H. reflexivity.
      * split; [discriminate | intros [H _]; discriminate].
    + assert (Hlt : (c < -1)%Q).
      { apply Qnot_le_lt. intros H. apply Qle_bool_iff in H. congruence. }
      split; [|split].
      * split; [intros _; exists c; auto | reflexivity].
      * intros e H. inversion H. reflexivity.
      * split; [discriminate | intros [H _]; discriminate].
    + assert (Hlt : (c < -1)%Q).
      { apply Qnot_le_lt. intros H. apply Qle_bool_iff in H. congruence. }
      split; [|split].
      * split; [intros _; exists c; auto | reflexivity].
      * intros e H. inversion H. reflexivity.
      * split; [discriminate | intros [H _]; discriminate].
  - split; [|split].
    + split; [destruct cov0; discriminate | intros (c & H & _); discriminate].
    + intros e. destruct cov0; discriminate.
    + destruct cov0; split; try discriminate; auto.
      intros [_ H]. discriminate.
Qed.

(** X16.  An object that [BivariateNormal.__init__] returns has a mean
    vector [[mean1, mean2]] and a symmetric 2x2 covariance matrix, so it
    would pass the dimension check of [MultivariateNormal.__init__],
    which is never called; a given variance replaces the square of the
    standard deviation, a given covariance is used as it is, and any
    correlation given lies in [[-1, 1)]. *)
Theorem BivariateNormal_object_is_well_formed :
  forall (np_sqrt : Q -> Q) (mean1 mean2 sd1 sd2 : Q)
         (corr var1 var2 cov0 : option Q) (o : MultivariateNormal),
    BivariateNormal_init np_sqrt mean1 mean2 sd1 sd2 corr var1 var2 cov0
      = Returned o ->
    MultivariateNormal_init (mean o) (cov o) = OK o /\
    mean o = [mean1; mean2] /\
    (exists v1 c v2,
       cov o = [[v1; c]; [c; v2]] /\
       v1 = match var1 with Some v => v | None => (sd1 * sd1)%Q end /\
       v2 = match var2 with Some v => v | None => (sd2 * sd2)%Q end /\
       (forall c0, cov0 = Some c0 -> c = c0) /\
       (forall r, cov0 = None -> corr = Some r ->
                  c = (r * np_sqrt (v1 * v2))%Q)) /\
    (forall r, corr = Some r -> (-1 <= r < 1)%Q).
Proof.
  intros np_sqrt mean1 mean2 sd1 sd2 corr var1 var2 cov0 o.
  unfold BivariateNormal_init.
  destruct (match corr with
            | Some c => negb (Qle_bool (-1) c && Qltb c 1)
            | None => false
            end) eqn:Ecorr; [discriminate|].
  assert (Hcorr : forall r, corr = Some r -> (-1 <= r < 1)%Q).
  { intros r ->. apply negb_false_iff, andb_true_iff in Ecorr.
    destruct Ecorr as [E1 E2]. apply Qle_bool_iff in E1.
    apply Qltb_true in E2. auto. }
  assert (Hsq : forall s, (s ^ 2 = s * s)%Q) by reflexivity.
  destruct cov0 as [c0|]; [|destruct corr as [r|]; [|discriminate]];
    intros H; inversion H; subst; cbn [mean cov];
    (split; [reflexivity|]); (split; [reflexivity|]);
    (split; [|exact Hcorr]);
    eexists; eexists; eexists;
    (split; [reflexivity|]);
    (split; [destruct var1; reflexivity|]);
    (split; [destruct var2; reflexivity|]);
    (split; [intros c H'; inversion H'; reflexivity|]);
    intros r' H1 H2; try discriminate; inversion H2; subst;
    destruct var1, var2; reflexivity.
Qed.

Lemma BivariateNormal_object_is_well_formed_witness :
  exists o,
    BivariateNormal_init (fun q => q) 0 0 1 2 (Some (1 # 2)) None None None
      = Returned o /\
    MultivariateNormal_init (mean o) (cov o) = OK o.
Proof.
  eexists. split; [reflexivity|].
  exact (proj1 (@BivariateNormal_object_is_well_formed (fun q => q) 0 0 1 2
                  (Some (1 # 2)) None None None _ eq_refl)).
Defined.

(* ================================================================== *)
(** * Absorbing rows of an accepted generator *)
(* ================================================================== *)

Section RoundedSums.

Variable round : Q -> Q.

(** Of the rounding: it keeps the order, it fixes what it returns, and it
    fixes 0. *)
Hypothesis round_monotone : forall a b, (a <= b)%Q -> (round a <= round b)%Q.
Hypothesis round_idempotent : forall a, (round (round a) == round a)%Q.
Hypothesis round_zero : (round 0 == 0)%Q.

(** A computed sum of numbers that are not negative is at least its
    start and at least every number added. *)
Lemma rounded_sum_bounds (l : list Q) :
  forall acc,
    (round acc == acc)%Q -> (0 <= acc)%Q ->
    (forall q, In q l -> 0 <= q /\ round q == q)%Q ->
    (acc <= fold_left (Rounded.add round) l acc)%Q /\
    (forall q, In q l -> q <= fold_left (Rounded.add round) l acc)%Q.
Proof.
  induction l as [|a l IH]; intros acc Hacc Hnn Hl; cbn [fold_left].
  - split; [lra | intros q []].
  - destruct (Hl a (or_introl eq_refl)) as [Ha Hra].
    assert (H1 : (acc <= Rounded.add round acc a)%Q).
    { unfold Rounded.add. rewrite <- Hacc at 1. apply round_monotone. lra. }
    assert (H2 : (a <= Rounded.add round acc a)%Q).
    { unfold Rounded.add. rewrite <- Hra at 1. apply round_monotone. lra. }
    destruct (IH (Rounded.add round acc a)) as [H3 H4].
    + unfold Rounded.add. apply round_idempotent.
    + lra.
    + intros q Hq. apply Hl. right. exact Hq.
    + split; [lra|]. intros q [<- | Hq]; [lra | apply H4; exact Hq].
Qed.

Lemma rounded_sum_zero_all_zero (l : list Q) :
  (forall q, In q l -> 0 <= q /\ round q == q)%Q ->
  (Rounded.sum round l == 0)%Q ->
  forall q, In q l -> (q == 0)%Q.
Proof.
  intros Hl Hs q Hq. unfold Rounded.sum in Hs.
  destruct (rounded_sum_bounds l 0%Q round_zero (Qle_refl 0) Hl) as [_ H].
  specialize (H q Hq). destruct (Hl q Hq) as [Hnn _]. lra.
Qed.

End RoundedSums.

(** X17.  Take a rounding that keeps the order, fixes what it returns
    and fixes 0, and a generator that [check_generator] accepts, with a
    row whose entries are numbers of the type computed with.  If the
    row's diagonal entry is zero, the row is zero everywhere (an
    absorbing state); and a row with a positive entry has a strictly
    negative diagonal entry. *)
Theorem accepted_zero_diagonal_row_is_zero :
  forall (round : Q -> Q) (g : matrix) (i : nat) (row : list Q) (d : Q),
    (forall a b, (a <= b)%Q -> (round a <= round b)%Q) ->
    (forall a, (round (round a) == round a)%Q) ->
    (round 0 == 0)%Q ->
    (forall q, In q row -> (round q == q)%Q) ->
    Rounded.check_generator round g = OK tt ->
    nth_error g i = Some row -> nth_error row i = Some d ->
    ((d == 0)%Q -> forall q, In q row -> (q == 0)%Q) /\
    ((exists q, In q row /\ 0 < q)%Q -> (d < 0)%Q).
Proof.
  intros round g i row d Hmono Hidem Hzero Hrep Hc Hr Hd.
  destruct (proj1 (rounded_check_generator_OK round g) Hc i row Hr)
    as [Hsum Hent].
  assert (Hdiag : (d <= 0)%Q).
  { specialize (Hent i d Hd). rewrite Nat.eqb_refl in Hent. exact Hent. }
  assert (Hall : (d == 0)%Q -> forall q, In q row -> (q == 0)%Q).
  { intros Hz. apply (rounded_sum_zero_all_zero round Hmono Hidem Hzero);
      [|exact Hsum].
    intros q Hq. split; [|exact (Hrep q Hq)].
    apply In_nth_error in Hq. destruct Hq as [j Hj].
    specialize (Hent j q Hj). destruct (j =? i)%nat eqn:E; [|exact Hent].
    apply Nat.eqb_eq in E. subst j.
    assert (q = d) by congruence. subst q. lra. }
  split; [exact Hall|].
  intros (q & Hq & Hpos).
  destruct (Qlt_le_dec d 0) as [Hlt | Hge]; [exact Hlt|].
  exfalso. assert (Hz : (d == 0)%Q) by lra.
  specialize (Hall Hz q Hq). lra.
Qed.

Lemma accepted_zero_diagonal_row_is_zero_witness :
  Rounded.check_generator (fun q => q) [[-3; 1; 2]; [0; 0; 0]; [2; 2; -4]]%Q
    = OK tt /\
  (-3 < 0)%Q.
Proof.
  assert (Hc : Rounded.check_generator (fun q => q)
                 [[-3; 1; 2]; [0; 0; 0]; [2; 2; -4]]%Q = OK tt)
    by (vm_compute; reflexivity).
  split; [exact Hc|].
  apply (proj2 (accepted_zero_diagonal_row_is_zero (fun q => q)
                  [[-3; 1; 2]; [0; 0; 0]; [2; 2; -4]]%Q 0%nat
                  [-3; 1; 2]%Q (-3)%Q
                  (fun a b H => H) (fun a => Qeq_refl a) (Qeq_refl 0)
                  (fun q _ => Qeq_refl q) Hc eq_refl eq_refl)).
  exists 2%Q. split; [right; right; left; reflexivity | reflexivity].
Defined.

(* ================================================================== *)
(** * What the index rule does to the global generator *)
(* ================================================================== *)

Section Consumption.

Context {RS : RandomState}.

Lemma choice_OK_advances (m : nat) (p : list Q) (g g' : rng) (i : nat) :
  choice m p g = (OK i, g') -> g' = snd (next_double_bits g).
Proof.
  intros H. destruct (choice_OK_checked m p g g' i H) as (H1 & H2 & H3 & H4).
  destruct (choice_checked_supported m p g H1 H2 H3 H4) as (j & q & Hc & _).
  rewrite Hc in H. inversion H. reflexivity.
Qed.

Lemma walk_OK_advances (transition_matrix : list (list Q))
    (initial_dist : list Q) (n : nat) :
  forall (state : nat) (g g' : rng) (s : nat),
    MarkovChain.walk transition_matrix initial_dist n state g = (OK s, g') ->
    g' = Nat.iter n (fun r => snd (next_double_bits r)) g.
Proof.
  induction n as [|n IH]; intros state g g' s H.
  - inversion H. reflexivity.
  - rewrite walk_S in H.
    destruct (getitem transition_matrix state) as [p|e]; [|discriminate].
    destruct (choice (MarkovChain.m initial_dist) p g) as [[s1|e] g1] eqn:Ec;
      [|discriminate].
    apply choice_OK_advances in Ec. subst g1.
    rewrite (IH _ _ _ _ H). rewrite Nat.iter_succ_r. reflexivity.
Qed.

End Consumption.

(** X18.  Every query re-walks the path from the seed: when the index
    rule returns at index [n], it leaves the global generator in the
    state reached from [np.random.seed(seed)] by exactly [n + 1]
    uniform samples, whatever state the generator was in before the
    query. *)
Theorem MarkovChain_query_reseeds_and_takes_n_plus_1_samples :
  forall (RS : RandomState) (Label : Type) (transition_matrix : list (list Q))
         (initial_dist : list Q) (state_labels : option (list Label))
         (seed : Z) (n : nat) (g : rng) (v : value Label),
    fst (MarkovChain.x transition_matrix initial_dist state_labels seed n g)
      = OK v ->
    snd (MarkovChain.x transition_matrix initial_dist state_labels seed n g)
      = Nat.iter (S n) (fun r => snd (next_double_bits r)) (seed_state seed).
Proof.
  intros RS Label tm dist labels seed n g v H. rewrite x_unfold in *.
  destruct (choice (MarkovChain.m dist) dist (seed_state seed))
    as [[s0|e] g1] eqn:Ec; [|discriminate].
  apply choice_OK_advances in Ec. subst g1.
  destruct (MarkovChain.walk tm dist n s0 _) as [[s|e] g2] eqn:Ew;
    [|discriminate].
  apply walk_OK_advances in Ew. subst g2. cbn [snd].
  rewrite Nat.iter_succ_r. reflexivity.
Qed.

Lemma MarkovChain_query_reseeds_and_takes_n_plus_1_samples_witness :
  snd (@MarkovChain.x LCG unit [[0; 1]; [1; 0]]%Q [1; 0]%Q None 7%Z 2 12345%Z)
  = lcg_next (lcg_next (lcg_next 7%Z)).
Proof.
  assert (H : fst (@MarkovChain.x LCG unit [[0; 1]; [1; 0]]%Q [1; 0]%Q None
                     7%Z 2 12345%Z) = OK (State 0))
    by (vm_compute; reflexivity).
  rewrite (@MarkovChain_query_reseeds_and_takes_n_plus_1_samples LCG unit
             [[0; 1]; [1; 0]]%Q [1; 0]%Q None 7%Z 2%nat 12345%Z (State 0) H).
  vm_compute. reflexivity.
Defined.
